(** * The WebSocket hub of internal/controllers/websocket_controller.go

    A shallow embedding of the connection hub (Client, Message,
    WebSocketController, HandleConnections, readMessages, writeMessages,
    Run and notifyUserStatus) and the properties of its registry, routing
    and presence fan-out.

    Conventions of the embedding.
    - int64 values are integers in Z; the hub performs no arithmetic on them.
    - A []byte frame and a Go string are both a [string] (a list of bytes).
    - Heap objects with identity (channels, connections, Client structs) are
      named by addresses of type [loc].
    - The code runs in a state-and-outcome monad [M]: an operation either
      completes, panics, or blocks the goroutine executing it. *)

From stdpp Require Import base gmap list strings pretty.

Open Scope Z_scope.

(** ** Text helpers *)

(** The double-quote character, used to assemble JSON text. *)
Definition dq : string := String (Ascii.ascii_of_nat 34) EmptyString.

Definition quoted (s : string) : string := dq +:+ s +:+ dq.

(** ** Package fmt: the verb %s

    What fmt.Sprintf prints for the operand kinds the hub passes to it.  The
    verb %s is defined for strings only; an integer or a boolean operand is
    reported as a bad verb, and a struct is printed field by field between
    braces, each field under the same verb, separated by one space. *)
Module fmt.

#[warnings="-register-all"]
Inductive value :=
| Int64 (z : Z)
| Str (s : string)
| Bool (b : bool)
| Struct (fields : list value).

Definition bool_text (b : bool) : string := if b then "true" else "false".

Fixpoint verb_s (v : value) : string :=
  match v with
  | Int64 z => "%!s(int64=" +:+ pretty z +:+ ")"
  | Str s => s
  | Bool b => "%!s(bool=" +:+ bool_text b +:+ ")"
  | Struct fields =>
      "{" +:+
      (fix go (first : bool) (l : list value) : string :=
         match l with
         | [] => EmptyString
         | f :: rest =>
             (if first then EmptyString else " ") +:+ verb_s f +:+ go false rest
         end) true fields
      +:+ "}"
  end.

(** A format string, cut at its verbs. *)
Inductive piece := Lit (s : string) | Verb_s.

Fixpoint Sprintf (format : list piece) (args : list value) : string :=
  match format with
  | [] => EmptyString
  | Lit s :: rest => s +:+ Sprintf rest args
  | Verb_s :: rest =>
      match args with
      | a :: args' => verb_s a +:+ Sprintf rest args'
      | [] => "%!s(MISSING)" +:+ Sprintf rest []
      end
  end.

End fmt.

(** ** Data model *)

Definition loc := positive.
Bind Scope positive_scope with loc.
Definition frame := string.
(** An instant of the wall clock (time.Time), as a tick count. *)
Definition time := Z.

(** type Client struct.  The fields are never assigned after construction, so
    a *Client is represented by the address [ptr] of the struct together with
    the fields stored there; two pointers are equal when their [ptr] agree. *)
Record Client := mkClient {
  ptr : loc;
  Conn : loc;
  UserID : Z;
  Username : string;
  Send : loc
}.

(** type Message struct. *)
Record Message := mkMessage {
  SenderID : Z;
  SenderName : string;
  ReceiverID : Z;
  Content : string;
  Timestamp : time
}.

#[global] Instance Client_eq_dec : EqDecision Client.
Proof. solve_decision. Defined.

#[global] Instance Message_eq_dec : EqDecision Message.
Proof. solve_decision. Defined.

(** A buffered channel of frames: make(chan []byte, n). *)
Module Chan.
Record t := mk { buf : list frame; cap : nat; closed : bool }.
Definition make (n : nat) : t := mk [] n false.
Definition push (f : frame) (c : t) : t := mk (buf c ++ [f]) (cap c) (closed c).
Definition pop (c : t) : t := mk (tail (buf c)) (cap c) (closed c).
Definition shut (c : t) : t := mk (buf c) (cap c) true.
End Chan.

(** What arrives on the three unbuffered channels of the controller. *)
Inductive event :=
| register (client : Client)
| unregister (client : Client)
| broadcast (message : Message).

(** The primitive operations a goroutine completes, in program order. *)
Inductive op :=
| OpLock
| OpUnlock
| OpStore (k : Z)
| OpLookup (k : Z)
| OpDelete (k : Z)
| OpRange
| OpSend (ch : loc) (f : frame)
| OpRecv (ch : loc) (f : frame)
| OpClose (ch : loc)
| OpWrite (conn : loc) (f : frame)
| OpConnClose (conn : loc).

#[global] Instance op_eq_dec : EqDecision op.
Proof. solve_decision. Defined.

(** The controller, the part of the heap it reaches, and the history of
    completed operations. *)
Record State := mkState {
  clients : gmap Z Client;
  mu : bool;
  chans : gmap loc Chan.t;
  structs : gset loc;
  trace : list op
}.

(** func NewWebSocketController. *)
Definition NewWebSocketController : State :=
  mkState ∅ false ∅ ∅ [].

Definition with_clients (m : gmap Z Client) (σ : State) : State :=
  mkState m (mu σ) (chans σ) (structs σ) (trace σ).
Definition with_mu (b : bool) (σ : State) : State :=
  mkState (clients σ) b (chans σ) (structs σ) (trace σ).
Definition with_chans (h : gmap loc Chan.t) (σ : State) : State :=
  mkState (clients σ) (mu σ) h (structs σ) (trace σ).
Definition with_structs (s : gset loc) (σ : State) : State :=
  mkState (clients σ) (mu σ) (chans σ) s (trace σ).
Definition log (o : op) (σ : State) : State :=
  mkState (clients σ) (mu σ) (chans σ) (structs σ) (trace σ ++ [o]).

(** The frames queued in a channel. *)
Definition mailbox (σ : State) (ch : loc) : list frame :=
  from_option Chan.buf [] (chans σ !! ch).

(** ** The monad of goroutine code *)

Inductive fault :=
| CloseOfClosedChannel
| CloseOfNilChannel
| SendOnClosedChannel
| UnlockOfUnlockedMutex
| TypeAssertion.

Inductive result (A : Type) :=
| Ok (a : A) (σ : State)
| Panic (why : fault) (σ : State)
| Blocked (σ : State).
Arguments Ok {A} a σ.
Arguments Panic {A} why σ.
Arguments Blocked {A} σ.

Definition M (A : Type) : Type := State → result A.

#[global] Instance M_ret : MRet M := λ A a σ, Ok a σ.

#[global] Instance M_bind : MBind M := λ A B k m σ,
  match m σ with
  | Ok a σ' => k a σ'
  | Panic why σ' => Panic why σ'
  | Blocked σ' => Blocked σ'
  end.

Definition panic {A} (why : fault) : M A := λ σ, Panic why σ.

(** *** sync.Mutex (not reentrant) *)

Definition Lock : M unit :=
  λ σ, if mu σ then Blocked σ else Ok tt (log OpLock (with_mu true σ)).

Definition Unlock : M unit :=
  λ σ, if mu σ then Ok tt (log OpUnlock (with_mu false σ))
       else Panic UnlockOfUnlockedMutex σ.

(** *** map[int64]*Client *)

Definition clients_lookup (k : Z) : M (option Client) :=
  λ σ, Ok (clients σ !! k) (log (OpLookup k) σ).

Definition clients_store (k : Z) (c : Client) : M unit :=
  λ σ, Ok tt (log (OpStore k) (with_clients (<[k := c]> (clients σ)) σ)).

Definition clients_delete (k : Z) : M unit :=
  λ σ, Ok tt (log (OpDelete k) (with_clients (delete k (clients σ)) σ)).

(** The order in which a range statement visits a map is not specified; a
    [Ranger] is one way of enumerating every map. *)
Record Ranger := mkRanger {
  visit :> gmap Z Client → list (Z * Client);
  visit_perm : ∀ m, visit m ≡ₚ map_to_list m
}.

(** One such order: that of [map_to_list]. *)
Definition listed : Ranger := mkRanger map_to_list (λ m, reflexivity _).

Definition clients_range (order : Ranger) : M (list (Z * Client)) :=
  λ σ, Ok (order (clients σ)) (log OpRange σ).

(** *** Channels.  An address with no channel behind it is the nil channel. *)

Definition make_chan (n : nat) : M loc :=
  λ σ, let ch := fresh (dom (chans σ)) in
       Ok ch (with_chans (<[ch := Chan.make n]> (chans σ)) σ).

Definition chan_send (ch : loc) (f : frame) : M unit :=
  λ σ, match chans σ !! ch with
       | None => Blocked σ
       | Some q =>
           if Chan.closed q then Panic SendOnClosedChannel σ
           else if decide (length (Chan.buf q) < Chan.cap q)%nat
           then Ok tt (log (OpSend ch f)
                         (with_chans (<[ch := Chan.push f q]> (chans σ)) σ))
           else Blocked σ
       end.

Definition chan_close (ch : loc) : M unit :=
  λ σ, match chans σ !! ch with
       | None => Panic CloseOfNilChannel σ
       | Some q =>
           if Chan.closed q then Panic CloseOfClosedChannel σ
           else Ok tt (log (OpClose ch)
                         (with_chans (<[ch := Chan.shut q]> (chans σ)) σ))
       end.

(** Receive: [Some f] is a frame, [None] is the end of a closed channel. *)
Definition chan_recv (ch : loc) : M (option frame) :=
  λ σ, match chans σ !! ch with
       | None => Blocked σ
       | Some q =>
           match Chan.buf q with
           | f :: _ =>
               Ok (Some f) (log (OpRecv ch f)
                              (with_chans (<[ch := Chan.pop q]> (chans σ)) σ))
           | [] => if Chan.closed q then Ok None σ else Blocked σ
           end
       end.

(** &Client{...}: a struct at a fresh address. *)
Definition new_Client (conn : loc) (uid : Z) (name : string) (send : loc)
  : M Client :=
  λ σ, let p := fresh (structs σ) in
       Ok (mkClient p conn uid name send)
          (with_structs ({[p]} ∪ structs σ) σ).

(** ** The hub *)

(** The format of the presence frame in notifyUserStatus. *)
Definition status_format : list fmt.piece :=
  [fmt.Lit ("{" +:+ quoted "type" +:+ ":" +:+ quoted "status" +:+ ","
              +:+ quoted "data" +:+ ":");
   fmt.Verb_s;
   fmt.Lit "}"].

Definition status_frame (userID : Z) (username : string) (online : bool)
  : frame :=
  let statusMessage :=
    fmt.Struct [fmt.Int64 userID; fmt.Str username; fmt.Bool online] in
  fmt.Sprintf status_format [statusMessage].

(** The body of the range loop of notifyUserStatus over the entries still to
    visit. *)
Fixpoint notify_loop (entries : list (Z * Client)) (userID : Z)
    (username : string) (online : bool) : M unit :=
  match entries with
  | [] => mret tt
  | (id, client) :: rest =>
      (if decide (id ≠ userID)
       then chan_send (Send client) (status_frame userID username online)
       else mret tt) ;;
      notify_loop rest userID username online
  end.

(** func (wsc *WebSocketController) notifyUserStatus. *)
Definition notifyUserStatus (order : Ranger) (userID : Z) (username : string)
    (online : bool) : M unit :=
  entries ← clients_range order;
  notify_loop entries userID username online.

(** One turn of the select statement of Run, for the event received. *)
Definition Run_step (order : Ranger) (ev : event) : M unit :=
  match ev with
  | register client =>
      Lock ;;
      clients_store (UserID client) client ;;
      Unlock ;;
      notifyUserStatus order (UserID client) (Username client) true
  | unregister client =>
      Lock ;;
      found ← clients_lookup (UserID client);
      (match found with
       | Some _ =>
           clients_delete (UserID client) ;;
           chan_close (Send client)
       | None => mret tt
       end) ;;
      Unlock ;;
      notifyUserStatus order (UserID client) (Username client) false
  | broadcast message =>
      Lock ;;
      found ← clients_lookup (ReceiverID message);
      (match found with
       | Some receiver => chan_send (Send receiver) (Content message)
       | None => mret tt
       end) ;;
      Unlock
  end.

(** func (wsc *WebSocketController) Run, over the events it receives, each
    with the order its range statement takes. *)
Fixpoint Run (evs : list (Ranger * event)) : M unit :=
  match evs with
  | [] => mret tt
  | (order, ev) :: rest => Run_step order ev ;; Run rest
  end.

(** ** The connection tasks *)

Inductive task :=
| reading (client : Client)
| writing (client : Client).

(** What a handler or a reader does to the world outside the hub state. *)
Inductive action :=
| RespondJSON (status : nat) (body : string)
| Upgrade
| LogPrintf (what : string)
| Submit (ev : event)
| Go (t : task)
| ConnClose (conn : loc).

(** The outcome of one Conn.ReadJSON: a decoded frame, with the reading of
    time.Now() taken in that iteration, or an error. *)
Inductive read :=
| Decoded (msg : Message) (now : time)
| ReadError (unexpected : bool).

(** The three assignments of readMessages before the send on wsc.broadcast. *)
Definition stamp (client : Client) (msg : Message) (now : time) : Message :=
  let msg := mkMessage (UserID client) (SenderName msg) (ReceiverID msg)
               (Content msg) (Timestamp msg) in
  let msg := mkMessage (SenderID msg) (Username client) (ReceiverID msg)
               (Content msg) (Timestamp msg) in
  mkMessage (SenderID msg) (SenderName msg) (ReceiverID msg) (Content msg) now.

(** The for loop of readMessages.  A transport with nothing more to read is
    one that has been closed: the next read fails with an expected close. *)
Fixpoint read_loop (client : Client) (inputs : list read) : list action :=
  match inputs with
  | [] => []
  | ReadError unexpected :: _ =>
      if unexpected then [LogPrintf "Error reading message"] else []
  | Decoded msg now :: rest =>
      Submit (broadcast (stamp client msg now)) :: read_loop client rest
  end.

(** func (wsc *WebSocketController) readMessages: the loop, then the
    deferred function. *)
Definition readMessages (client : Client) (inputs : list read) : list action :=
  read_loop client inputs ++
  [Submit (unregister client); ConnClose (Conn client)].

Inductive writer := Running | Exited.

Definition conn_write (conn : loc) (f : frame) : M unit :=
  λ σ, Ok tt (log (OpWrite conn f) σ).

Definition conn_close (conn : loc) : M unit :=
  λ σ, Ok tt (log (OpConnClose conn) σ).

(** One iteration of the range loop of writeMessages; [write_ok] tells
    whether Conn.WriteMessage succeeds.  Leaving the loop runs the deferred
    Conn.Close. *)
Definition writeMessages_turn (client : Client) (write_ok : bool) : M writer :=
  received ← chan_recv (Send client);
  match received with
  | Some message =>
      if write_ok
      then conn_write (Conn client) message ;; mret Running
      else conn_close (Conn client) ;; mret Exited
  | None => conn_close (Conn client) ;; mret Exited
  end.

(** ** The upgrade endpoint *)

(** The dynamic values a gin context can hold under a key. *)
Inductive any :=
| Int64Val (z : Z)
| StringVal (s : string)
| OtherVal.

Record Context := mkContext { Keys : gmap string any }.

Definition Get (c : Context) (key : string) : option any := Keys c !! key.

Definition StatusUnauthorized : nat := 401.

(** gin.H{error: Unauthorized}, as c.JSON writes it. *)
Definition unauthorized_body : string :=
  "{" +:+ quoted "error" +:+ ":" +:+ quoted "Unauthorized" +:+ "}".

(** func (wsc *WebSocketController) HandleConnections.  [upgrade] is what
    upgrader.Upgrade returns when called: a connection, or an error.  The
    type assertions of the Client literal are evaluated after the upgrade and
    before make; one that fails panics. *)
Definition HandleConnections (c : Context) (upgrade : option loc)
  : M (list action) :=
  match Get c "userID" with
  | None => mret [RespondJSON StatusUnauthorized unauthorized_body]
  | Some userID =>
      match Get c "username" with
      | None => mret [RespondJSON StatusUnauthorized unauthorized_body]
      | Some username =>
          match upgrade with
          | None => mret [Upgrade; LogPrintf "Error upgrading to websocket"]
          | Some conn =>
              match userID, username with
              | Int64Val uid, StringVal name =>
                  send ← make_chan 256;
                  client ← new_Client conn uid name send;
                  mret [Upgrade; Submit (register client);
                        Go (reading client); Go (writing client)]
              | _, _ => panic TypeAssertion
              end
          end
      end
  end.

(** ** Putting the tasks together *)

(** The events a list of actions sends to the hub, in order. *)
Fixpoint submitted (acts : list action) : list event :=
  match acts with
  | [] => []
  | Submit ev :: rest => ev :: submitted rest
  | _ :: rest => submitted rest
  end.

(** The hub receives the given events, ranging in the order [listed]. *)
Definition receive (evs : list event) : M unit :=
  Run ((λ ev, (listed, ev)) <$> evs).

(** The request context the authentication middleware leaves behind. *)
Definition authenticated (uid : Z) (name : string) : Context :=
  mkContext (<["userID" := Int64Val uid]> (<["username" := StringVal name]> ∅)).

(** The Client spawned by a handler, if any. *)
Fixpoint spawned (acts : list action) : option Client :=
  match acts with
  | [] => None
  | Go (reading client) :: _ => Some client
  | _ :: rest => spawned rest
  end.

(** A user connects: the handler runs and the hub receives what it submits. *)
Definition connect (order : Ranger) (uid : Z) (name : string) (conn : loc)
  : M (option Client) :=
  acts ← HandleConnections (authenticated uid name) (Some conn);
  Run ((λ ev, (order, ev)) <$> submitted acts) ;;
  mret (spawned acts).

(** ** Specification vocabulary *)

(** A channel that exists, is open and has a free slot: a send on it
    completes at once. *)
Definition has_room (σ : State) (ch : loc) : bool :=
  match chans σ !! ch with
  | Some q => negb (Chan.closed q) && bool_decide (length (Chan.buf q) < Chan.cap q)%nat
  | None => false
  end.

(** A channel that exists and has not been closed. *)
Definition is_open (σ : State) (ch : loc) : bool :=
  match chans σ !! ch with
  | Some q => negb (Chan.closed q)
  | None => false
  end.

(** No two entries of a registry share a mailbox. *)
Definition distinct_mailboxes (m : gmap Z Client) : Prop :=
  NoDup (Send <$> (map_to_list m).*2).

(** The frames a channel has handed to its receiver, oldest first. *)
Fixpoint received (ch : loc) (tr : list op) : list frame :=
  match tr with
  | [] => []
  | OpRecv c f :: rest =>
      if decide (c = ch) then f :: received ch rest else received ch rest
  | _ :: rest => received ch rest
  end.





(** The operations a computation completes when started in [σ], whatever its
    outcome. *)
Definition final {A} (r : result A) : State :=
  match r with
  | Ok _ σ => σ
  | Panic _ σ => σ
  | Blocked σ => σ
  end.

Definition history {A} (m : M A) (σ : State) : list op :=
  drop (length (trace σ)) (trace (final (m σ))).

(** The structured frame of a routed message: the JSON object whose members
    are named by the tags of the Message struct, the instant written as its
    tick count. *)
Definition Message_json (m : Message) : frame :=
  "{" +:+ quoted "sender_id" +:+ ":" +:+ pretty (SenderID m) +:+ ","
      +:+ quoted "sender_name" +:+ ":" +:+ quoted (SenderName m) +:+ ","
      +:+ quoted "receiver_id" +:+ ":" +:+ pretty (ReceiverID m) +:+ ","
      +:+ quoted "content" +:+ ":" +:+ quoted (Content m) +:+ ","
      +:+ quoted "timestamp" +:+ ":" +:+ pretty (Timestamp m) +:+ "}".

(** The structured presence record, members named by the tags of the
    struct in notifyUserStatus. *)
Definition presence_json (userID : Z) (username : string) (online : bool)
  : frame :=
  "{" +:+ quoted "type" +:+ ":" +:+ quoted "status" +:+ ","
      +:+ quoted "data" +:+ ":" +:+
  "{" +:+ quoted "user_id" +:+ ":" +:+ pretty userID +:+ ","
      +:+ quoted "username" +:+ ":" +:+ quoted username +:+ ","
      +:+ quoted "online" +:+ ":" +:+ fmt.bool_text online +:+ "}" +:+ "}".



Definition is_send (o : op) : bool :=
  match o with
  | OpSend _ _ => true
  | _ => false
  end.

(** The mailboxes notifyUserStatus sends to, in the order of the range. *)
Fixpoint targets (entries : list (Z * Client)) (userID : Z) : list loc :=
  match entries with
  | [] => []
  | (id, client) :: rest =>
      if decide (id ≠ userID) then Send client :: targets rest userID
      else targets rest userID
  end.

(** ** The states along the branches of Run *)

Definition stored (client : Client) (σ : State) : State :=
  mkState (<[UserID client := client]> (clients σ)) false (chans σ) (structs σ)
    (trace σ ++ [OpLock; OpStore (UserID client); OpUnlock; OpRange]).

(** The states the unregister branch passes through. *)
Definition skipped (client : Client) (σ : State) : State :=
  mkState (clients σ) false (chans σ) (structs σ)
    (trace σ ++ [OpLock; OpLookup (UserID client); OpUnlock; OpRange]).

Definition deleting (client : Client) (σ : State) : State :=
  mkState (delete (UserID client) (clients σ)) true (chans σ) (structs σ)
    (trace σ ++ [OpLock; OpLookup (UserID client); OpDelete (UserID client)]).

Definition removed (client : Client) (q : Chan.t) (σ : State) : State :=
  mkState (delete (UserID client) (clients σ)) false
    (<[Send client := Chan.shut q]> (chans σ)) (structs σ)
    (trace σ ++ [OpLock; OpLookup (UserID client); OpDelete (UserID client);
                 OpClose (Send client); OpUnlock; OpRange]).

(** The state in which the route branch sends, blocks or panics. *)
Definition looked_up (message : Message) (σ : State) : State :=
  mkState (clients σ) true (chans σ) (structs σ)
    (trace σ ++ [OpLock; OpLookup (ReceiverID message)]).

(** ** The hub and the Writers take turns *)

(** One turn: the hub receives an event, or the Writer of a Client runs one
    iteration of its loop. *)
Inductive turn :=
| hub (order : Ranger) (ev : event)
| drain (client : Client) (write_ok : bool).

Fixpoint system (turns : list turn) : M unit :=
  match turns with
  | [] => mret tt
  | hub order ev :: rest => Run_step order ev ;; system rest
  | drain client write_ok :: rest =>
      writeMessages_turn client write_ok ;; system rest
  end.

(** A conversation from A to B: A's Reader decodes a frame and the hub
    routes it, or B's Writer takes the next frame from the mailbox and
    writes it. *)
Inductive move :=
| routed (wire : Message) (now : time)
| written.

Definition turn_of (order : Ranger) (A B : Client) (mv : move) : turn :=
  match mv with
  | routed wire now => hub order (broadcast (stamp A wire now))
  | written => drain B true
  end.

(** The contents A sent, in the order its Reader submitted them. *)
Fixpoint contents (plan : list move) : list frame :=
  match plan with
  | [] => []
  | routed wire _ :: rest => Content wire :: contents rest
  | written :: rest => contents rest
  end.

(** Every frame of the conversation names the receiver [id]. *)
Definition addressed (id : Z) (plan : list move) : Prop :=
  Forall (λ mv, match mv with
                | routed wire _ => ReceiverID wire = id
                | written => True
                end) plan.

(** The conversation never meets a full mailbox (256 frames queued) when the
    hub routes, nor an empty one when the Writer takes a frame. *)
Fixpoint paced (queued : nat) (plan : list move) : bool :=
  match plan with
  | [] => true
  | routed _ _ :: rest => bool_decide (queued < 256)%nat && paced (S queued) rest
  | written :: rest =>
      match queued with
      | O => false
      | S n => paced n rest
      end
  end.

(** ** Scenarios on a fresh controller *)

(** The Clients the handler builds on a fresh controller: the first
    connection gets struct 1 and channel 1, the second struct 2 and
    channel 2. *)
Definition first_client (uid : Z) (name : string) (conn : loc) : Client :=
  mkClient 1 conn uid name 1.
Definition second_client (uid : Z) (name : string) (conn : loc) : Client :=
  mkClient 2 conn uid name 2.

Definition alice : Client := first_client 1 "alice" 10.
Definition bob : Client := second_client 2 "bob" 20.
(** A second connection of user 1, opened while or after the first. *)
Definition alice_again : Client := second_client 1 "alice" 30.

(** User 1 connects twice; then the Reader of the first connection ends. *)
Definition second_tab : M unit :=
  connect listed 1 "alice" 10 ;;
  connect listed 1 "alice" 30 ;;
  receive [unregister alice].


(** Alice and bob connect; alice's Reader decodes one frame for bob. *)
Definition alice_greets_bob (wire : Message) (now : time) : M unit :=
  connect listed 1 "alice" 10 ;;
  connect listed 2 "bob" 20 ;;
  receive (submitted (read_loop alice [Decoded wire now])).

(** Alice and bob connect; alice's Reader ends. *)
Definition alice_leaves : M unit :=
  connect listed 1 "alice" 10 ;;
  connect listed 2 "bob" 20 ;;
  receive (submitted (readMessages alice [])).

(** Alice is registered; the handler of bob's request has allocated his
    Client and its mailbox, and the hub is about to receive register(bob). *)
Definition lobby : State :=
  mkState {[1 := alice]} false
    (<[2%positive := Chan.make 256]> {[1%positive := Chan.make 256]})
    {[1%positive; 2%positive]} [].

(** The lobby, with alice's mailbox full: her Writer has not drained it. *)
Definition crowded_lobby : State :=
  mkState {[1 := alice]} false
    (<[2%positive := Chan.make 256]>
       {[1%positive := Chan.mk (replicate 256 "hi") 256 false]})
    {[1%positive; 2%positive]} [].

(** ** The Writer, from start to end *)

(** func (wsc *WebSocketController) writeMessages: the range loop over the
    mailbox, followed for as many iterations as [writes] has entries, each
    telling whether the Conn.WriteMessage of that iteration succeeds.  The
    line logged on a failed write is not part of the state. *)
Fixpoint writeMessages (client : Client) (writes : list bool) : M writer :=
  match writes with
  | [] => mret Running
  | write_ok :: rest =>
      status ← writeMessages_turn client write_ok;
      match status with
      | Running => writeMessages client rest
      | Exited => mret Exited
      end
  end.

(** The frames written to a connection, oldest first. *)
Fixpoint wire (conn : loc) (tr : list op) : list frame :=
  match tr with
  | [] => []
  | OpWrite c f :: rest =>
      if decide (c = conn) then f :: wire conn rest else wire conn rest
  | _ :: rest => wire conn rest
  end.

(** What one iteration of the Writer of [client] does when it takes the
    frame [f] and writes it. *)
Definition relay (client : Client) (f : frame) : list op :=
  [OpRecv (Send client) f; OpWrite (Conn client) f].

(** The operations the Writer of [client] may perform. *)
Definition writer_op (client : Client) (o : op) : bool :=
  match o with
  | OpRecv ch _ => bool_decide (ch = Send client)
  | OpWrite conn _ | OpConnClose conn => bool_decide (conn = Conn client)
  | _ => false
  end.

(** The state after the Writer of [client] has taken frames from its
    mailbox, leaving [q] there, and completed the operations [ops]. *)
Definition after_writer (client : Client) (q : Chan.t) (ops : list op)
    (σ : State) : State :=
  mkState (clients σ) (mu σ) (<[Send client := q]> (chans σ)) (structs σ)
    (trace σ ++ ops).

(** ** The registry as the events leave it *)

(** The effect of one event on the registry: a registration files the
    Client under its id, an unregistration removes whatever is filed under
    the id of the Client, a route changes nothing. *)
Definition registry_step (m : gmap Z Client) (ev : event) : gmap Z Client :=
  match ev with
  | register client => <[UserID client := client]> m
  | unregister client => delete (UserID client) m
  | broadcast _ => m
  end.

Definition registry_after (evs : list event) (m : gmap Z Client)
  : gmap Z Client :=
  foldl registry_step m evs.

(** Every entry is filed under the id of its own Client. *)
Definition keyed (m : gmap Z Client) : Prop :=
  map_Forall (λ k client, UserID client = k) m.

(** The frames a Reader decodes before its first failed read, each with the
    clock reading of its iteration. *)
Fixpoint decoded (inputs : list read) : list (Message * time) :=
  match inputs with
  | Decoded msg now :: rest => (msg, now) :: decoded rest
  | _ => []
  end.

(** The route event a Reader makes of a decoded frame. *)
Definition routed_as (client : Client) (p : Message * time) : event :=
  broadcast (mkMessage (UserID client) (Username client) (ReceiverID p.1)
               (Content p.1) p.2).

(** Alice and bob are both registered, with empty mailboxes. *)
Definition parlour : State :=
  mkState (<[2 := bob]> {[1 := alice]}) false
    (<[2%positive := Chan.make 256]> {[1%positive := Chan.make 256]})
    {[1%positive; 2%positive]} [].

(** Alice has left with two frames still queued for her. *)
Definition alice_gone : State :=
  mkState ∅ false {[1%positive := Chan.mk ["one"; "two"] 256 true]}
    {[1%positive]} [].

(** * Properties *)

(** ** The monad, step by step *)

Lemma bind_Ok {A B} (m : M A) (k : A → M B) σ a σ1 :
  m σ = Ok a σ1 → (m ≫= k) σ = k a σ1.
Proof. intros E. unfold mbind, M_bind. by rewrite E. Qed.

Lemma bind_Panic {A B} (m : M A) (k : A → M B) σ why σ1 :
  m σ = Panic why σ1 → (m ≫= k) σ = Panic why σ1.
Proof. intros E. unfold mbind, M_bind. by rewrite E. Qed.

Lemma bind_Blocked {A B} (m : M A) (k : A → M B) σ σ1 :
  m σ = Blocked σ1 → (m ≫= k) σ = Blocked σ1.
Proof. intros E. unfold mbind, M_bind. by rewrite E. Qed.

Lemma chan_send_ok ch f σ :
  has_room σ ch = true →
  ∃ q, chans σ !! ch = Some q ∧
       chan_send ch f σ =
         Ok tt (log (OpSend ch f)
                  (with_chans (<[ch := Chan.push f q]> (chans σ)) σ)).
Proof.
  unfold has_room, chan_send. destruct (chans σ !! ch) as [q|]; [|done].
  intros [Hopen Hlen%bool_decide_eq_true]%andb_true_iff. exists q. split; [done|].
  apply negb_true_iff in Hopen. rewrite Hopen. by rewrite decide_True.
Qed.

(** ** The three branches of the select, from an unlocked controller *)

(** Unfolds the operations of a branch on a state given by its fields. *)
Ltac run_branch :=
  unfold Run_step, notifyUserStatus, mbind, M_bind, Lock, Unlock,
    clients_store, clients_lookup, clients_delete, clients_range,
    chan_send, chan_close, stored, skipped, deleting, removed, looked_up,
    log, with_mu, with_clients, with_chans;
  simpl.

Lemma Run_step_register order client σ :
  mu σ = false →
  Run_step order (register client) σ =
    notify_loop (order (<[UserID client := client]> (clients σ)))
      (UserID client) (Username client) true (stored client σ).
Proof.
  intros Hmu. destruct σ as [m b h s tr]. simpl in Hmu. subst b.
  run_branch. by rewrite <- !app_assoc.
Qed.

Lemma Run_step_unregister order client σ :
  mu σ = false →
  Run_step order (unregister client) σ =
    match clients σ !! UserID client with
    | None =>
        notify_loop (order (clients σ)) (UserID client) (Username client) false
          (skipped client σ)
    | Some _ =>
        match chans σ !! Send client with
        | None => Panic CloseOfNilChannel (deleting client σ)
        | Some q =>
            if Chan.closed q
            then Panic CloseOfClosedChannel (deleting client σ)
            else notify_loop (order (delete (UserID client) (clients σ)))
                   (UserID client) (Username client) false (removed client q σ)
        end
    end.
Proof.
  intros Hmu. destruct σ as [m b h s tr]. simpl in Hmu. subst b.
  run_branch.
  destruct (m !! UserID client) as [c|]; simpl; [|by rewrite <- !app_assoc].
  destruct (h !! Send client) as [q|]; simpl; [|by rewrite <- !app_assoc].
  destruct (Chan.closed q); simpl; by rewrite <- !app_assoc.
Qed.

Lemma Run_step_broadcast order message σ :
  mu σ = false →
  Run_step order (broadcast message) σ =
    match clients σ !! ReceiverID message with
    | None =>
        Ok tt (mkState (clients σ) false (chans σ) (structs σ)
                 (trace σ ++ [OpLock; OpLookup (ReceiverID message); OpUnlock]))
    | Some receiver =>
        match chans σ !! Send receiver with
        | None => Blocked (looked_up message σ)
        | Some q =>
            if Chan.closed q then Panic SendOnClosedChannel (looked_up message σ)
            else if decide (length (Chan.buf q) < Chan.cap q)%nat
            then Ok tt (mkState (clients σ) false
                          (<[Send receiver := Chan.push (Content message) q]>
                             (chans σ))
                          (structs σ)
                          (trace σ ++ [OpLock; OpLookup (ReceiverID message);
                                       OpSend (Send receiver) (Content message);
                                       OpUnlock]))
            else Blocked (looked_up message σ)
        end
    end.
Proof.
  intros Hmu. destruct σ as [m b h s tr]. simpl in Hmu. subst b.
  run_branch.
  destruct (m !! ReceiverID message) as [receiver|]; simpl;
    [|by rewrite <- !app_assoc].
  destruct (h !! Send receiver) as [q|]; simpl; [|by rewrite <- !app_assoc].
  destruct (Chan.closed q); simpl; [by rewrite <- !app_assoc|].
  destruct (decide _); simpl; by rewrite <- !app_assoc.
Qed.

(** ** The loop of notifyUserStatus *)

Lemma entry_send_elem (entries : list (Z * Client)) id client :
  (id, client) ∈ entries → Send client ∈ Send <$> entries.*2.
Proof.
  intros Hin. apply list_elem_of_fmap_2.
  by apply (list_elem_of_fmap_2 snd _ (id, client)).
Qed.

Lemma NoDup_fmap_eq {A B} (f : A → B) (l : list A) x y :
  NoDup (f <$> l) → x ∈ l → y ∈ l → f x = f y → x = y.
Proof.
  induction l as [|a l IH]; simpl; [by intros _ ?%elem_of_nil|].
  intros [Hnotin Hnodup]%NoDup_cons [->|Hx]%elem_of_cons [->|Hy]%elem_of_cons Hf.
  - done.
  - exfalso. apply Hnotin. rewrite Hf. by apply list_elem_of_fmap_2.
  - exfalso. apply Hnotin. rewrite <- Hf. by apply list_elem_of_fmap_2.
  - by apply IH.
Qed.

Section presence_loop.
Context (userID : Z) (username : string) (online : bool).

Local Abbreviation presence := (status_frame userID username online).
Local Abbreviation loop entries := (notify_loop entries userID username online).

Lemma targets_elem entries ch :
  ch ∈ targets entries userID ↔
  ∃ id client, (id, client) ∈ entries ∧ id ≠ userID ∧ Send client = ch.
Proof.
  induction entries as [|[id client] rest IH]; simpl.
  - split; [by intros ?%elem_of_nil|]. by intros (? & ? & ?%elem_of_nil & _).
  - destruct (decide (id ≠ userID)) as [Hne|Heq].
    + rewrite elem_of_cons, IH. split.
      * intros [->|(id' & c' & Hin & Hne' & Hch)].
        -- exists id, client. split; [left|]; done.
        -- exists id', c'. split; [by right|done].
      * intros (id' & c' & [[= -> ->]|Hin]%elem_of_cons & Hne' & Hch);
          [by left|right; eauto].
    + rewrite IH. split.
      * intros (id' & c' & Hin & Hne' & Hch). exists id', c'.
        split; [by right|done].
      * intros (id' & c' & [[= -> ->]|Hin]%elem_of_cons & Hne' & Hch);
          [done|eauto].
Qed.

Lemma targets_sends entries ch :
  ch ∈ targets entries userID → ch ∈ Send <$> entries.*2.
Proof.
  intros (id & client & Hin & _ & <-)%targets_elem.
  by apply (entry_send_elem _ id).
Qed.

(** However the loop ends, it has completed sends only, and has left the
    registry and the mutex alone. *)
Lemma notify_loop_frame entries σ :
  clients (final (loop entries σ)) = clients σ ∧
  mu (final (loop entries σ)) = mu σ ∧
  ∃ sends, trace (final (loop entries σ)) = trace σ ++ sends ∧
           forallb is_send sends = true.
Proof.
  revert σ. induction entries as [|[id client] rest IH]; intros σ; simpl.
  { split; [done|]. split; [done|]. exists []. by rewrite app_nil_r. }
  unfold mbind, M_bind. destruct (decide (id ≠ userID)); simpl; [|apply IH].
  unfold chan_send.
  destruct (chans σ !! Send client) as [q|];
    [|split; [done|]; split; [done|]; exists []; by rewrite app_nil_r].
  destruct (Chan.closed q);
    [split; [done|]; split; [done|]; exists []; by rewrite app_nil_r|].
  destruct (decide _);
    [|split; [done|]; split; [done|]; exists []; by rewrite app_nil_r].
  destruct (IH (log (OpSend (Send client) presence)
                  (with_chans
                     (<[Send client := Chan.push presence q]> (chans σ)) σ)))
    as (Hclients & Hmu & sends & Htrace & Hsends).
  split; [done|]. split; [done|].
  exists (OpSend (Send client) presence :: sends).
  split; [|done]. rewrite Htrace. simpl. by rewrite <- app_assoc.
Qed.

(** Open, roomy and pairwise distinct targets: the loop completes and
    appends one frame to each of them, and to nothing else. *)
Lemma notify_loop_ok entries σ :
  NoDup (Send <$> entries.*2) →
  Forall (λ e, e.1 ≠ userID → has_room σ (Send e.2) = true) entries →
  ∃ σ', loop entries σ = Ok tt σ' ∧
        ∀ ch, chans σ' !! ch =
              if decide (ch ∈ targets entries userID)
              then Chan.push presence <$> chans σ !! ch
              else chans σ !! ch.
Proof.
  revert σ. induction entries as [|[id client] rest IH]; intros σ Hnodup Hready.
  { exists σ. split; [done|].
    intros ch. rewrite decide_False; [done|]. by intros ?%elem_of_nil. }
  simpl in Hnodup. apply NoDup_cons in Hnodup as [Hfresh Hnodup].
  apply Forall_cons in Hready as [Hhead Hready]. simpl in Hhead.
  simpl. destruct (decide (id ≠ userID)) as [Hne|Heq].
  - destruct (chan_send_ok (Send client) presence σ (Hhead Hne))
      as (q & Hq & Hsend).
    rewrite (bind_Ok _ _ _ _ _ Hsend).
    set (σ1 := log _ _) in *.
    destruct (IH σ1 Hnodup) as (σ' & Hrun & Hchans).
    { apply Forall_forall. intros [id' c'] Hin Hne'.
      rewrite Forall_forall in Hready. specialize (Hready _ Hin Hne').
      simpl in *. unfold has_room in *. simpl.
      rewrite lookup_insert_ne; [done|]. intros Heq. apply Hfresh.
      rewrite Heq. by apply (entry_send_elem _ id'). }
    exists σ'. split; [done|].
    intros ch. rewrite Hchans. simpl.
    destruct (decide (ch = Send client)) as [->|Hother].
    + rewrite decide_False.
      2:{ intros Hin%targets_sends. done. }
      rewrite decide_True by left. by rewrite lookup_insert_eq, Hq.
    + rewrite lookup_insert_ne by done.
      destruct (decide (ch ∈ targets rest userID)) as [Hin|Hout].
      * rewrite decide_True; [done|by right].
      * rewrite decide_False; [done|]. by intros [?|?]%elem_of_cons.
  - rewrite (bind_Ok _ _ σ tt σ) by done.
    by apply IH.
Qed.

End presence_loop.

(** ** The fan-out over the registry *)

Lemma visit_elem (order : Ranger) (m : gmap Z Client) id client :
  (id, client) ∈ order m ↔ m !! id = Some client.
Proof. by rewrite (visit_perm order m), elem_of_map_to_list. Qed.

Lemma visit_distinct (order : Ranger) (m : gmap Z Client) :
  distinct_mailboxes m → NoDup (Send <$> (order m).*2).
Proof. unfold distinct_mailboxes. by rewrite (visit_perm order m). Qed.

Lemma distinct_mailboxes_inj m i j c d :
  distinct_mailboxes m → m !! i = Some c → m !! j = Some d →
  Send c = Send d → i = j.
Proof.
  unfold distinct_mailboxes. rewrite <- list_fmap_compose.
  intros Hnodup Hi%elem_of_map_to_list Hj%elem_of_map_to_list Hsend.
  by pose proof (NoDup_fmap_eq _ _ (i, c) (j, d) Hnodup Hi Hj Hsend) as [= -> ->].
Qed.

Lemma distinct_mailboxes_delete m i c :
  distinct_mailboxes (<[i := c]> m) → distinct_mailboxes (delete i m).
Proof.
  unfold distinct_mailboxes. rewrite <- (insert_delete_eq m).
  rewrite map_to_list_insert by apply lookup_delete_eq.
  simpl. by intros [_ ?]%NoDup_cons.
Qed.

(** The fan-out over the registry [clients σ], for the user [userID]: when
    the mailboxes of the registry are pairwise distinct and those of the
    other users have room, every one of these gets the presence frame and no
    other channel changes. *)
Lemma fan_out_ok (order : Ranger) userID username online σ :
  distinct_mailboxes (clients σ) →
  (∀ id c, clients σ !! id = Some c → id ≠ userID → has_room σ (Send c) = true) →
  ∃ σ', notify_loop (order (clients σ)) userID username online σ = Ok tt σ' ∧
        clients σ' = clients σ ∧ mu σ' = mu σ ∧
        (∀ id c, clients σ !! id = Some c → id ≠ userID →
                 mailbox σ' (Send c) =
                   mailbox σ (Send c) ++ [status_frame userID username online]) ∧
        (∀ ch, (∀ id c, clients σ !! id = Some c → id ≠ userID → Send c ≠ ch) →
               chans σ' !! ch = chans σ !! ch).
Proof.
  intros Hdistinct Hready.
  destruct (notify_loop_ok userID username online (order (clients σ)) σ)
    as (σ' & Hrun & Hchans).
  { by apply visit_distinct. }
  { apply Forall_forall. intros [id c] Hin%visit_elem Hne. by apply (Hready id). }
  destruct (notify_loop_frame userID username online (order (clients σ)) σ)
    as (Hclients & Hmu & _).
  rewrite Hrun in Hclients, Hmu.
  exists σ'. split; [done|]. split; [done|]. split; [done|]. split.
  - intros id c Hin Hne. unfold mailbox. rewrite Hchans.
    rewrite decide_True.
    2:{ apply targets_elem. exists id, c. by rewrite visit_elem. }
    specialize (Hready id c Hin Hne). unfold has_room in Hready.
    by destruct (chans σ !! Send c).
  - intros ch Hother. rewrite Hchans. rewrite decide_False; [done|].
    intros (id & c & Hin%visit_elem & Hne & Hch)%targets_elem.
    by apply (Hother id c).
Qed.

(** ** Histories *)

Lemma received_app ch tr1 tr2 :
  received ch (tr1 ++ tr2) = received ch tr1 ++ received ch tr2.
Proof.
  induction tr1 as [|o tr1 IH]; [done|].
  destruct o; simpl; try done. destruct (decide _); simpl; by rewrite IH.
Qed.

Lemma received_sends ch sends :
  forallb is_send sends = true → received ch sends = [].
Proof.
  induction sends as [|o sends IH]; [done|].
  simpl. intros [Ho Hrest]%andb_true_iff. destruct o; try done. by apply IH.
Qed.



Lemma closes_sends ch sends :
  forallb is_send sends = true → OpClose ch ∉ sends.
Proof.
  induction sends as [|o sends IH]; [by intros _ ?%elem_of_nil|].
  simpl. intros [Ho Hrest]%andb_true_iff [Heq|Hin]%elem_of_cons.
  - by subst o.
  - by apply IH.
Qed.

(** A branch that ends in the fan-out: what it did before, then sends. *)
Lemma history_fan_out entries userID username online σ σ1 prefix :
  trace σ1 = trace σ ++ prefix →
  ∃ sends,
    drop (length (trace σ))
      (trace (final (notify_loop entries userID username online σ1)))
      = prefix ++ sends ∧
    forallb is_send sends = true.
Proof.
  intros Hprefix.
  destruct (notify_loop_frame userID username online entries σ1)
    as (_ & _ & sends & Htrace & Hsends).
  exists sends. split; [|done].
  by rewrite Htrace, Hprefix, <- app_assoc, drop_app_length.
Qed.

(** ** The upgrade endpoint refuses unauthenticated requests *)

(** C10.  When the request context has no userID value or no username value,
    HandleConnections answers 401 Unauthorized and returns: the handler's
    only action is that response (no upgrade, no goroutine, no register
    event), no Client or channel is allocated, and the hub, given what the
    handler submitted, is left exactly as it was. *)
Theorem HandleConnections_unauthorized (c : Context) (upgrade : option loc)
    (σ : State) :
  Get c "userID" = None ∨ Get c "username" = None →
  HandleConnections c upgrade σ
    = Ok [RespondJSON 401 unauthorized_body] σ ∧
  submitted [RespondJSON 401 unauthorized_body] = [] ∧
  receive (submitted [RespondJSON 401 unauthorized_body]) σ = Ok tt σ.
Proof.
  intros Hmissing. split; [|done].
  unfold HandleConnections.
  destruct (Get c "userID") as [userID|] eqn:Hid; [|done].
  destruct Hmissing as [?|Hname]; [done|]. by rewrite Hname.
Qed.

Lemma HandleConnections_unauthorized_witness :
  Get (mkContext {["userID" := Int64Val 7]}) "username" = None ∧
  HandleConnections (mkContext {["userID" := Int64Val 7]}) (Some 5%positive)
      NewWebSocketController
    = Ok [RespondJSON 401 unauthorized_body] NewWebSocketController.
Proof.
  split; [reflexivity|].
  apply (HandleConnections_unauthorized
           (mkContext {["userID" := Int64Val 7]}) (Some 5%positive)
           NewWebSocketController).
  right. reflexivity.
Defined.

(** ** The Reader stamps the sender *)







(** ** Routing to an absent receiver *)

(** C6.  A route event whose receiver has no entry in the registry completes
    without a panic and without blocking; it sends on no channel (the only
    operations are the lock, the lookup and the unlock), so nothing reaches
    the sender or anybody else, and the registry and every channel are
    unchanged. *)
Theorem route_miss_is_silent (order : Ranger) (σ : State) (message : Message) :
  mu σ = false →
  clients σ !! ReceiverID message = None →
  ∃ σ', Run_step order (broadcast message) σ = Ok tt σ' ∧
        clients σ' = clients σ ∧
        chans σ' = chans σ ∧
        (∀ ch, mailbox σ' ch = mailbox σ ch) ∧
        mu σ' = false ∧
        history (Run_step order (broadcast message)) σ =
          [OpLock; OpLookup (ReceiverID message); OpUnlock].
Proof.
  intros Hmu Hmiss.
  pose proof (Run_step_broadcast order message σ Hmu) as Hstep.
  rewrite Hmiss in Hstep. eexists. split; [exact Hstep|].
  repeat split.
  unfold history. rewrite Hstep. simpl. by rewrite drop_app_length.
Qed.

Lemma route_miss_is_silent_witness :
  ∃ σ', Run_step listed (broadcast (mkMessage 1 "alice" 2 "hi" 0))
          NewWebSocketController = Ok tt σ' ∧
        clients σ' = ∅ ∧ chans σ' = ∅.
Proof.
  destruct (route_miss_is_silent listed NewWebSocketController
              (mkMessage 1 "alice" 2 "hi" 0)) as (σ' & Hrun & Hc & Hh & _).
  - reflexivity.
  - reflexivity.
  - exists σ'. split; [exact Hrun|]. split; [exact Hc|exact Hh].
Defined.

(** ** Scenarios on a fresh controller *)

Lemma connect_alice :
  ∃ σ, connect listed 1 "alice" 10 NewWebSocketController = Ok (Some alice) σ.
Proof. eexists. vm_compute. reflexivity. Qed.

Lemma connect_alice_bob :
  ∃ σ, (connect listed 1 "alice" 10 ;; connect listed 2 "bob" 20)
         NewWebSocketController = Ok (Some bob) σ ∧
       clients σ !! 1 = Some alice ∧ clients σ !! 2 = Some bob.
Proof. eexists. vm_compute. done. Qed.

Lemma connect_alice_twice :
  ∃ σ, (connect listed 1 "alice" 10 ;; connect listed 1 "alice" 30)
         NewWebSocketController = Ok (Some alice_again) σ ∧
       clients σ !! 1 = Some alice_again.
Proof. eexists. vm_compute. done. Qed.

(** ** Unregistration does not compare Clients *)

(** C1, evaluated.  User 1 connects twice, so the entry for id 1 points at
    the second Client; processing unregister for the first Client then
    deletes that entry although it points at a different, newer Client, and
    closes the mailbox of the first Client while the second stays open and
    unreachable. *)
Theorem unregister_drops_newer_connection :
  alice ≠ alice_again ∧
  ∃ σ0 σ,
    (connect listed 1 "alice" 10 ;; connect listed 1 "alice" 30)
      NewWebSocketController = Ok (Some alice_again) σ0 ∧
    clients σ0 !! UserID alice = Some alice_again ∧
    Run_step listed (unregister alice) σ0 = Ok tt σ ∧
    clients σ !! UserID alice = None ∧
    is_open σ (Send alice) = false ∧
    is_open σ (Send alice_again) = true ∧
    second_tab NewWebSocketController = Ok tt σ.
Proof.
  split; [done|]. do 2 eexists.
  split; [vm_compute; reflexivity|]. split; [vm_compute; reflexivity|].
  split; [vm_compute; reflexivity|]. vm_compute. done.
Qed.


(** Without a registration in between, a second unregister of the same
    Client finds no entry and closes nothing. *)
Lemma unregister_twice_in_a_row order1 order2 client σ σ1 :
  mu σ = false →
  Run_step order1 (unregister client) σ = Ok tt σ1 →
  ∀ ch, OpClose ch ∉ history (Run_step order2 (unregister client)) σ1.
Proof.
  intros Hmu Hfirst ch.
  assert (mu σ1 = false ∧ clients σ1 !! UserID client = None) as [Hmu1 Hgone].
  { rewrite Run_step_unregister in Hfirst by done.
    destruct (clients σ !! UserID client) as [c|] eqn:Hentry.
    - destruct (chans σ !! Send client) as [q|]; [|done].
      destruct (Chan.closed q); [done|].
      destruct (notify_loop_frame (UserID client) (Username client) false
                  (order1 (delete (UserID client) (clients σ)))
                  (removed client q σ)) as (Hclients & Hmu' & _).
      rewrite Hfirst in Hclients, Hmu'. simpl in Hclients, Hmu'.
      split; [done|]. rewrite Hclients. apply lookup_delete_eq.
    - destruct (notify_loop_frame (UserID client) (Username client) false
                  (order1 (clients σ)) (skipped client σ))
        as (Hclients & Hmu' & _).
      rewrite Hfirst in Hclients, Hmu'. simpl in Hclients, Hmu'.
      split; [done|]. by rewrite Hclients. }
  unfold history. rewrite Run_step_unregister by done. rewrite Hgone.
  destruct (history_fan_out (order2 (clients σ1)) (UserID client)
              (Username client) false σ1 (skipped client σ1)
              [OpLock; OpLookup (UserID client); OpUnlock; OpRange] eq_refl)
    as (sends & -> & Hsends).
  intros [Hin|Hin]%elem_of_app.
  - repeat (apply elem_of_cons in Hin as [?|Hin]; [done|]).
    by apply elem_of_nil in Hin.
  - by apply (closes_sends ch sends).
Qed.

(** ** The frames on the wire *)

Lemma status_frame_not_json userID username online :
  status_frame userID username online ≠ presence_json userID username online.
Proof. unfold status_frame, presence_json. simpl. discriminate. Qed.

(** C4, evaluated.  After alice (user 1) and bob have connected and alice is
    unregistered, the presence frame in bob's mailbox is the format string
    filled with the struct printed under the verb %s, which is not the JSON
    record; and no presence frame the hub builds is that record. *)
Theorem presence_frame_is_not_json :
  (∃ σ, alice_leaves NewWebSocketController = Ok tt σ ∧
        mailbox σ (Send bob) =
          ["{" +:+ quoted "type" +:+ ":" +:+ quoted "status" +:+ ","
               +:+ quoted "data" +:+ ":"
               +:+ "{%!s(int64=1) alice %!s(bool=false)}" +:+ "}"] ∧
        mailbox σ (Send bob) ≠ [presence_json 1 "alice" false]) ∧
  ∀ userID username online,
    status_frame userID username online ≠ presence_json userID username online.
Proof.
  split; [|apply status_frame_not_json].
  eexists. split; [vm_compute; reflexivity|]. split; [vm_compute; reflexivity|].
  vm_compute. discriminate.
Qed.

(** C3 as stated fails: after alice sends receiver_id 2, content hi, no frame
    in bob's mailbox is the structured message carrying sender_id 1,
    sender_name alice, receiver_id 2 and content hi, whatever its
    timestamp. *)
Lemma routed_frame_is_not_structured :
  ∃ σ, alice_greets_bob (mkMessage 0 EmptyString 2 "hi" 0) 1000
         NewWebSocketController = Ok tt σ ∧
       ¬ ∃ ts, Message_json (mkMessage 1 "alice" 2 "hi" ts) ∈ mailbox σ (Send bob).
Proof.
  eexists. split; [vm_compute; reflexivity|].
  intros [ts Hin]. vm_compute in Hin.
  apply elem_of_cons in Hin as [Heq|Hin]; [discriminate|].
  by apply elem_of_nil in Hin.
Qed.

(** C3, amended.  With alice (user 1) and bob (user 2) registered, when
    alice's Reader decodes a frame with receiver_id 2 and content hi, whatever
    sender fields and timestamp the wire supplied, the route event it submits
    carries sender_id 1, sender_name alice, receiver_id 2, content hi and the
    Reader's clock reading, which is not before the send time; the frame
    enqueued onto bob's mailbox is the raw content hi alone, and alice's own
    mailbox holds only the presence frame of bob's arrival. *)
Theorem routed_frame_is_raw_content
    (sid : Z) (sname : string) (ts sent now : time) :
  sent ≤ now →
  let wire := mkMessage sid sname 2 "hi" ts in
  (∃ m, submitted (read_loop alice [Decoded wire now]) = [broadcast m] ∧
        m = mkMessage 1 "alice" 2 "hi" now ∧ sent ≤ Timestamp m) ∧
  ∃ σ, alice_greets_bob wire now NewWebSocketController = Ok tt σ ∧
       mailbox σ (Send bob) = ["hi"] ∧
       mailbox σ (Send alice) = [status_frame 2 "bob" true].
Proof.
  intros Hclock wire. split.
  - eexists. split; [reflexivity|]. split; [reflexivity|]. exact Hclock.
  - eexists. split; [vm_compute; reflexivity|]. split; vm_compute; reflexivity.
Qed.

Lemma routed_frame_is_raw_content_witness :
  ∃ σ, alice_greets_bob (mkMessage 99 "mallory" 2 "hi" 5) 1000
         NewWebSocketController = Ok tt σ ∧
       mailbox σ (Send bob) = ["hi"].
Proof.
  destruct (routed_frame_is_raw_content 99 "mallory" 5 900 1000) as [_ (σ & Hrun & Hbob & _)].
  - lia.
  - exists σ. split; [exact Hrun|exact Hbob].
Defined.

(** ** The presence fan-out reaches every other Client *)

(** C7.  From an unlocked controller whose registered mailboxes are pairwise
    distinct and distinct from that of B, and in which the mailbox of every
    Client registered under another id is open with a free slot:
    processing register(B) completes, stores B under its id, appends exactly
    one presence-online frame for B to the mailbox of every other Client in
    the registry and nothing to the mailbox of B; and, provided the mailbox
    of B is open when its id has an entry, processing unregister(B)
    completes, removes the entry, appends exactly one presence-offline frame
    for B to the mailbox of every Client still in the registry and nothing
    to the mailbox of B. *)
Theorem presence_reaches_every_other_client (order : Ranger) (σ : State)
    (B : Client) :
  mu σ = false →
  distinct_mailboxes (<[UserID B := B]> (clients σ)) →
  map_Forall (λ id c, id ≠ UserID B → has_room σ (Send c) = true) (clients σ) →
  (∃ σ', Run_step order (register B) σ = Ok tt σ' ∧
         clients σ' = <[UserID B := B]> (clients σ) ∧
         (∀ id c, clients σ' !! id = Some c → id ≠ UserID B →
                  mailbox σ' (Send c) =
                    mailbox σ (Send c) ++
                    [status_frame (UserID B) (Username B) true]) ∧
         mailbox σ' (Send B) = mailbox σ (Send B)) ∧
  ((is_Some (clients σ !! UserID B) → is_open σ (Send B) = true) →
   ∃ σ', Run_step order (unregister B) σ = Ok tt σ' ∧
         clients σ' = delete (UserID B) (clients σ) ∧
         (∀ id c, clients σ' !! id = Some c →
                  id ≠ UserID B ∧
                  mailbox σ' (Send c) =
                    mailbox σ (Send c) ++
                    [status_frame (UserID B) (Username B) false]) ∧
         mailbox σ' (Send B) = mailbox σ (Send B)).
Proof.
  intros Hmu Hdistinct Hready. split.
  - (* register *)
    rewrite Run_step_register by done.
    destruct (fan_out_ok order (UserID B) (Username B) true (stored B σ))
      as (σ' & Hrun & Hclients & _ & Hothers & Hrest); [done| |].
    { simpl. intros id c Hin Hne. rewrite lookup_insert_ne in Hin by done.
      by apply (Hready id c). }
    exists σ'. split; [done|]. split; [done|]. split.
    + intros id c Hin Hne. rewrite Hclients in Hin. by apply (Hothers id c).
    + unfold mailbox. rewrite Hrest; [done|]. simpl.
      intros id c Hin Hne Hsend. apply Hne.
      apply (distinct_mailboxes_inj _ id (UserID B) c B Hdistinct);
        [done|apply lookup_insert_eq|done].
  - (* unregister *)
    intros Hopen. rewrite Run_step_unregister by done.
    assert (∀ id c, delete (UserID B) (clients σ) !! id = Some c →
                    id ≠ UserID B ∧ clients σ !! id = Some c ∧ Send c ≠ Send B)
      as Hother.
    { intros id c Hin. apply lookup_delete_Some in Hin as [Hne Hin].
      split; [done|]. split; [done|]. intros Hsend. apply Hne.
      apply (distinct_mailboxes_inj _ (UserID B) id B c Hdistinct);
        [apply lookup_insert_eq|by rewrite lookup_insert_ne|done]. }
    pose proof (distinct_mailboxes_delete _ _ _ Hdistinct) as Hdistinct'.
    destruct (clients σ !! UserID B) as [c0|] eqn:Hentry.
    + specialize (Hopen (mk_is_Some _ _ eq_refl)). unfold is_open in Hopen.
      destruct (chans σ !! Send B) as [q|] eqn:Hq; [|done].
      apply negb_true_iff in Hopen. rewrite Hopen.
      destruct (fan_out_ok order (UserID B) (Username B) false (removed B q σ))
        as (σ' & Hrun & Hclients & _ & Hothers & Hrest); [done| |].
      { simpl. intros id c Hin _. destruct (Hother id c Hin) as (Hne & Hin' & Hsend).
        unfold has_room. simpl. rewrite lookup_insert_ne by done.
        by apply (Hready id c). }
      exists σ'. split; [done|]. split; [done|]. split.
      * intros id c Hin. rewrite Hclients in Hin. simpl in Hin.
        destruct (Hother id c Hin) as (Hne & Hin' & Hsend). split; [done|].
        rewrite (Hothers id c Hin Hne). unfold mailbox. simpl.
        by rewrite lookup_insert_ne.
      * unfold mailbox. rewrite Hrest.
        -- simpl. by rewrite lookup_insert_eq, Hq.
        -- simpl. intros id c Hin _. by destruct (Hother id c Hin) as (_ & _ & ?).
    + rewrite (delete_id _ _ Hentry) in Hother, Hdistinct'.
      destruct (fan_out_ok order (UserID B) (Username B) false (skipped B σ))
        as (σ' & Hrun & Hclients & _ & Hothers & Hrest); [done| |].
      { simpl. intros id c Hin Hne. by apply (Hready id c). }
      exists σ'. split; [done|]. split; [by rewrite delete_id|]. split.
      * intros id c Hin. rewrite Hclients in Hin. simpl in Hin.
        destruct (Hother id c Hin) as (Hne & _ & _). split; [done|].
        by apply (Hothers id c).
      * unfold mailbox. rewrite Hrest; [done|].
        simpl. intros id c Hin _. by destruct (Hother id c Hin) as (_ & _ & ?).
Qed.

Lemma presence_reaches_every_other_client_witness :
  ∃ σ', Run_step listed (register bob) lobby = Ok tt σ' ∧
        mailbox σ' (Send alice) = [status_frame 2 "bob" true] ∧
        mailbox σ' (Send bob) = [].
Proof.
  destruct (presence_reaches_every_other_client listed lobby bob)
    as [(σ' & Hrun & Hclients & Hothers & Hself) _].
  - reflexivity.
  - unfold distinct_mailboxes. apply (bool_decide_unpack _). vm_compute. exact I.
  - apply (bool_decide_unpack _). vm_compute. exact I.
  - exists σ'. split; [exact Hrun|]. split; [|exact Hself].
    apply (Hothers 1 alice).
    + rewrite Hclients. vm_compute. reflexivity.
    + vm_compute. discriminate.
Defined.

(** The room asked of the other mailboxes is needed: on a full mailbox the
    send of the fan-out blocks the Hub Loop, mutex released, until the Writer
    of that Client takes a frame. *)
Lemma fan_out_blocks_on_full_mailbox :
  ∃ σ, Run_step listed (register bob) crowded_lobby = Blocked σ ∧
       mu σ = false ∧
       clients σ !! 2 = Some bob ∧
       mailbox σ (Send alice) = replicate 256 "hi".
Proof. eexists. vm_compute. done. Qed.

(** ** The mutex and the presence fan-out *)







(** ** Order of delivery *)

Lemma writeMessages_turn_takes client f rest cap σ :
  chans σ !! Send client = Some (Chan.mk (f :: rest) cap false) →
  writeMessages_turn client true σ =
    Ok Running
      (mkState (clients σ) (mu σ)
         (<[Send client := Chan.mk rest cap false]> (chans σ)) (structs σ)
         (trace σ ++ [OpRecv (Send client) f; OpWrite (Conn client) f])).
Proof.
  intros Hq. destruct σ as [m b h s tr]. simpl in Hq.
  unfold writeMessages_turn, mbind, M_bind, chan_recv, conn_write, mret, M_ret,
    log, with_chans. simpl. rewrite Hq. simpl. by rewrite <- !app_assoc.
Qed.

(** Routes to B and takes by B's Writer, from any state in which B is
    registered with an open mailbox of capacity 256: everything the mailbox
    has yielded or still holds grows by the routed contents, in order. *)
Lemma conversation_fifo order A B plan σ q :
  mu σ = false →
  clients σ !! UserID B = Some B →
  chans σ !! Send B = Some q →
  Chan.closed q = false →
  Chan.cap q = 256%nat →
  addressed (UserID B) plan →
  paced (length (Chan.buf q)) plan = true →
  ∃ σ', system (turn_of order A B <$> plan) σ = Ok tt σ' ∧
        mu σ' = false ∧
        clients σ' = clients σ ∧
        received (Send B) (trace σ') ++ mailbox σ' (Send B) =
          received (Send B) (trace σ) ++ mailbox σ (Send B) ++ contents plan.
Proof.
  revert σ q. induction plan as [|[wire now|] plan IH];
    intros σ q Hmu Hreg Hq Hopen Hcap Haddr Hpaced.
  - exists σ. by rewrite !app_nil_r.
  - apply Forall_cons in Haddr as [Hrcv Haddr].
    simpl in Hpaced. apply andb_true_iff in Hpaced as [Hlen%bool_decide_eq_true Hpaced].
    change (system (turn_of order A B <$> routed wire now :: plan))
      with (Run_step order (broadcast (stamp A wire now)) ;;
            system (turn_of order A B <$> plan)).
    assert (ReceiverID (stamp A wire now) = UserID B) as Hto by done.
    assert (Content (stamp A wire now) = Content wire) as Hcontent by done.
    revert Hto Hcontent. generalize (stamp A wire now). intros msg Hto Hcontent.
    pose proof (Run_step_broadcast order msg σ Hmu) as Hstep.
    rewrite Hto, Hreg, Hq, Hopen, Hcontent in Hstep.
    rewrite decide_True in Hstep by lia.
    rewrite (bind_Ok _ _ _ _ _ Hstep).
    set (σ1 := mkState _ _ _ _ _).
    destruct (IH σ1 (Chan.push (Content wire) q)) as (σ' & Hrun & Hmu' & Hclients & Hfifo);
      try done.
    { subst σ1. simpl. apply lookup_insert_eq. }
    { simpl. by rewrite length_app, Nat.add_1_r. }
    exists σ'. split; [|split; [done|split; [done|]]].
    { exact Hrun. }
    rewrite Hfifo. subst σ1. unfold mailbox. simpl.
    rewrite lookup_insert_eq, Hq. simpl.
    rewrite received_app. simpl. rewrite app_nil_r. by rewrite <- !app_assoc.
  - apply Forall_cons in Haddr as [_ Haddr].
    simpl in Hpaced. destruct q as [buf cap closed]. simpl in *. subst closed cap.
    destruct buf as [|f rest]; [done|]. simpl in Hpaced.
    change (system (turn_of order A B <$> written :: plan))
      with (writeMessages_turn B true ;; system (turn_of order A B <$> plan)).
    rewrite (bind_Ok _ _ _ _ _ (writeMessages_turn_takes B f rest 256 σ Hq)).
    set (σ1 := mkState _ _ _ _ _).
    destruct (IH σ1 (Chan.mk rest 256 false)) as (σ' & Hrun & Hmu' & Hclients & Hfifo);
      try done.
    { subst σ1. simpl. apply lookup_insert_eq. }
    exists σ'. split; [done|]. split; [done|]. split; [done|].
    rewrite Hfifo. subst σ1. unfold mailbox. simpl.
    rewrite lookup_insert_eq, Hq. simpl.
    rewrite received_app. simpl. rewrite decide_True by done.
    by rewrite <- !app_assoc.
Qed.

(** *** Two users connect to a fresh controller *)

Lemma HandleConnections_ok uid name conn σ :
  HandleConnections (authenticated uid name) (Some conn) σ =
    let client :=
      mkClient (fresh (structs σ)) conn uid name (fresh (dom (chans σ))) in
    Ok [Upgrade; Submit (register client); Go (reading client);
        Go (writing client)]
       (mkState (clients σ) (mu σ)
          (<[Send client := Chan.make 256]> (chans σ))
          ({[ptr client]} ∪ structs σ) (trace σ)).
Proof. by destruct σ. Qed.

Lemma connect_eq order uid name conn σ :
  mu σ = false →
  connect order uid name conn σ =
    let client :=
      mkClient (fresh (structs σ)) conn uid name (fresh (dom (chans σ))) in
    match
      notify_loop (order (<[uid := client]> (clients σ))) uid name true
        (stored client
           (mkState (clients σ) false
              (<[Send client := Chan.make 256]> (chans σ))
              ({[ptr client]} ∪ structs σ) (trace σ)))
    with
    | Ok _ σ' => Ok (Some client) σ'
    | Panic why σ' => Panic why σ'
    | Blocked σ' => Blocked σ'
    end.
Proof.
  intros Hmu. unfold connect.
  rewrite (bind_Ok _ _ _ _ _ (HandleConnections_ok uid name conn σ)).
  cbn [submitted fmap list_fmap Run spawned].
  unfold mbind at 1. unfold M_bind.
  unfold mbind at 1. unfold M_bind.
  rewrite Run_step_register by (by rewrite <- Hmu).
  simpl. rewrite Hmu.
  by destruct (notify_loop _ _ _ _ _) as [[] ?| |].
Qed.

Lemma connect_first order uid name conn :
  connect order uid name conn NewWebSocketController =
    Ok (Some (first_client uid name conn))
       (mkState {[uid := first_client uid name conn]} false
          {[1%positive := Chan.make 256]} {[1%positive]}
          [OpLock; OpStore uid; OpUnlock; OpRange]).
Proof.
  rewrite connect_eq by done. cbn zeta.
  set (p := fresh (structs NewWebSocketController)).
  set (ch := fresh (dom (chans NewWebSocketController))).
  assert (p = 1%positive) as Hp by (vm_compute; reflexivity).
  assert (ch = 1%positive) as Hch by (vm_compute; reflexivity).
  clearbody p ch. subst p ch.
  fold (first_client uid name conn). simpl clients. rewrite insert_empty.
  pose proof (visit_perm order {[uid := first_client uid name conn]}) as Hperm.
  rewrite map_to_list_singleton in Hperm.
  apply Permutation_singleton_r in Hperm. rewrite Hperm.
  simpl. rewrite decide_False by (intros ?; done).
  unfold mbind, M_bind, mret, M_ret, stored. simpl.
  by rewrite !insert_empty, (right_id_L ∅ (∪)).
Qed.

Lemma connect_second order idA nameA connA idB nameB connB :
  idA ≠ idB →
  let A := first_client idA nameA connA in
  let B := second_client idB nameB connB in
  ∃ σ', (connect order idA nameA connA ;; connect order idB nameB connB)
          NewWebSocketController = Ok (Some B) σ' ∧
        mu σ' = false ∧
        clients σ' = <[idB := B]> {[idA := A]} ∧
        chans σ' !! Send B = Some (Chan.make 256) ∧
        mailbox σ' (Send A) = [status_frame idB nameB true] ∧
        ∀ ch, received ch (trace σ') = [].
Proof.
  intros Hne A B.
  rewrite (bind_Ok _ _ _ _ _ (connect_first order idA nameA connA)).
  rewrite connect_eq by done. cbn zeta.
  set (p := fresh (structs _)). set (ch := fresh (dom _)).
  assert (p = 2%positive) as Hp by (vm_compute; reflexivity).
  assert (ch = 2%positive) as Hch by (vm_compute; reflexivity).
  clearbody p ch. subst p ch.
  fold (second_client idB nameB connB). fold (first_client idA nameA connA).
  fold A B. cbn [clients chans structs trace mu]. set (σ1 := stored B _).
  assert (clients σ1 = <[idB := B]> {[idA := A]}) as Hclients1 by done.
  rewrite <- Hclients1.
  destruct (fan_out_ok order idB nameB true σ1)
    as (σ' & Hrun & Hclients & Hmu & Hothers & Hrest).
  { rewrite Hclients1. unfold distinct_mailboxes.
    rewrite map_to_list_insert by by apply lookup_singleton_ne.
    rewrite map_to_list_singleton. simpl.
    apply (bool_decide_unpack _). vm_compute. exact I. }
  { rewrite Hclients1. intros id c Hin Hid.
    rewrite lookup_insert_ne in Hin by done.
    apply lookup_singleton_Some in Hin as [_ <-]. done. }
  rewrite Hrun. exists σ'. split; [done|]. split; [by rewrite Hmu|].
  split; [by rewrite Hclients|]. split; [|split].
  - rewrite Hrest; [done|]. rewrite Hclients1. intros id c Hin Hid.
    rewrite lookup_insert_ne in Hin by done.
    apply lookup_singleton_Some in Hin as [_ <-]. done.
  - rewrite (Hothers idA A); [done| |done].
    rewrite Hclients1. rewrite lookup_insert_ne by done.
    apply lookup_singleton_eq.
  - intros ch.
    destruct (notify_loop_frame idB nameB true (order (clients σ1)) σ1)
      as (_ & _ & sends & Htrace & Hsends).
    rewrite Hrun in Htrace. change (trace σ' = trace σ1 ++ sends) in Htrace.
    rewrite Htrace, received_app. by rewrite (received_sends _ _ Hsends).
Qed.

(** C8.  For identities A ≠ B that connect, in that order, to a fresh
    controller: after both are registered the mailbox of B is empty, and
    whatever frames for B the Reader of A then decodes, with B's Writer
    taking frames from the mailbox at any moments in between (the hub never
    meeting a full mailbox and the Writer never an empty one), every turn
    completes, and the frames B's mailbox has yielded followed by the frames
    it still holds are exactly the contents A sent, in the order they were
    submitted. *)
Theorem routed_messages_arrive_in_order (order : Ranger) (idA idB : Z)
    (nameA nameB : string) (connA connB : loc) (plan : list move) :
  idA ≠ idB →
  addressed idB plan →
  paced 0 plan = true →
  let A := first_client idA nameA connA in
  let B := second_client idB nameB connB in
  ∃ σ0 σ',
    (connect order idA nameA connA ;; connect order idB nameB connB)
      NewWebSocketController = Ok (Some B) σ0 ∧
    clients σ0 !! idA = Some A ∧ clients σ0 !! idB = Some B ∧
    mailbox σ0 (Send B) = [] ∧
    system (turn_of order A B <$> plan) σ0 = Ok tt σ' ∧
    received (Send B) (trace σ') ++ mailbox σ' (Send B) = contents plan.
Proof.
  intros Hne Haddr Hpaced A B.
  destruct (connect_second order idA nameA connA idB nameB connB Hne)
    as (σ0 & Hconnect & Hmu & Hclients & Hchan & _ & Hquiet).
  fold A B in Hconnect, Hclients, Hchan.
  destruct (conversation_fifo order A B plan σ0 (Chan.make 256))
    as (σ' & Hrun & _ & _ & Hfifo); try done.
  { rewrite Hclients. apply lookup_insert_eq. }
  exists σ0, σ'. split; [done|]. split.
  { rewrite Hclients, lookup_insert_ne by done. apply lookup_singleton_eq. }
  split; [rewrite Hclients; apply lookup_insert_eq|].
  split; [unfold mailbox; by rewrite Hchan|].
  split; [done|].
  rewrite Hfifo, Hquiet. unfold mailbox. by rewrite Hchan.
Qed.

Lemma routed_messages_arrive_in_order_witness :
  ∃ σ0 σ',
    (connect listed 1 "alice" 10 ;; connect listed 2 "bob" 20)
      NewWebSocketController = Ok (Some bob) σ0 ∧
    system (turn_of listed alice bob <$>
              [routed (mkMessage 0 EmptyString 2 "one" 0) 1000;
               routed (mkMessage 0 EmptyString 2 "two" 0) 1001;
               written;
               routed (mkMessage 0 EmptyString 2 "three" 0) 1002]) σ0
      = Ok tt σ' ∧
    received (Send bob) (trace σ') ++ mailbox σ' (Send bob)
      = ["one"; "two"; "three"].
Proof.
  destruct (routed_messages_arrive_in_order listed 1 2 "alice" "bob" 10 20
              [routed (mkMessage 0 EmptyString 2 "one" 0) 1000;
               routed (mkMessage 0 EmptyString 2 "two" 0) 1001;
               written;
               routed (mkMessage 0 EmptyString 2 "three" 0) 1002])
    as (σ0 & σ' & Hconnect & _ & _ & _ & Hrun & Hfifo).
  - lia.
  - repeat constructor.
  - reflexivity.
  - exists σ0, σ'. split; [exact Hconnect|]. split; [exact Hrun|exact Hfifo].
Defined.

(** * Further properties of the hub *)

(** ** The upgrade endpoint, beyond the missing identity *)

(** X1.  With an int64 userID and a string username in the request context
    and a successful upgrade, HandleConnections builds one Client with that
    identity on the upgraded connection, submits exactly one register event
    for it and starts its Reader and its Writer.  The mailbox of the Client
    is a channel that did not exist before (so no other Client shares it),
    empty, open, of capacity 256; the handler itself leaves the registry,
    the mutex and every existing channel as they were. *)
Theorem HandleConnections_establishes (c : Context) (conn : loc) (uid : Z)
    (name : string) (σ : State) :
  Get c "userID" = Some (Int64Val uid) →
  Get c "username" = Some (StringVal name) →
  ∃ client σ',
    HandleConnections c (Some conn) σ =
      Ok [Upgrade; Submit (register client); Go (reading client);
          Go (writing client)] σ' ∧
    UserID client = uid ∧ Username client = name ∧ Conn client = conn ∧
    chans σ !! Send client = None ∧
    (ptr client ∉ structs σ) ∧
    chans σ' = <[Send client := Chan.make 256]> (chans σ) ∧
    mailbox σ' (Send client) = [] ∧
    has_room σ' (Send client) = true ∧
    clients σ' = clients σ ∧ mu σ' = mu σ ∧ trace σ' = trace σ.
Proof.
  intros Hid Hname. unfold HandleConnections. rewrite Hid, Hname.
  exists (mkClient (fresh (structs σ)) conn uid name (fresh (dom (chans σ)))).
  eexists. split; [by destruct σ|]. simpl.
  split; [done|]. split; [done|]. split; [done|].
  split; [apply not_elem_of_dom, is_fresh|].
  split; [apply is_fresh|].
  split; [done|].
  unfold mailbox, has_room. simpl. by rewrite lookup_insert_eq.
Qed.

Lemma HandleConnections_establishes_witness :
  ∃ client σ',
    HandleConnections (authenticated 7 "carol") (Some 40%positive) lobby =
      Ok [Upgrade; Submit (register client); Go (reading client);
          Go (writing client)] σ' ∧
    UserID client = 7 ∧ chans lobby !! Send client = None.
Proof.
  destruct (HandleConnections_establishes (authenticated 7 "carol") 40 7 "carol"
              lobby) as (client & σ' & Hrun & Hid & _ & _ & Hnew & _).
  - reflexivity.
  - reflexivity.
  - exists client, σ'. split; [exact Hrun|]. split; [exact Hid|exact Hnew].
Defined.

(** X2.  When the context holds a userID and a username, of whatever dynamic
    type, and the upgrade fails, HandleConnections logs the error and
    returns: no type assertion is evaluated, no Client or channel is
    allocated, nothing is submitted to the hub and no goroutine is started. *)
Theorem HandleConnections_upgrade_failure (c : Context) (σ : State) :
  is_Some (Get c "userID") →
  is_Some (Get c "username") →
  HandleConnections c None σ =
    Ok [Upgrade; LogPrintf "Error upgrading to websocket"] σ ∧
  submitted [Upgrade; LogPrintf "Error upgrading to websocket"] = [] ∧
  spawned [Upgrade; LogPrintf "Error upgrading to websocket"] = None.
Proof.
  intros [userID Hid] [username Hname]. split; [|done].
  unfold HandleConnections. by rewrite Hid, Hname.
Qed.

Lemma HandleConnections_upgrade_failure_witness :
  HandleConnections
    (mkContext (<["userID" := OtherVal]> {["username" := OtherVal]}))
    None lobby =
    Ok [Upgrade; LogPrintf "Error upgrading to websocket"] lobby.
Proof.
  apply (HandleConnections_upgrade_failure
           (mkContext (<["userID" := OtherVal]> {["username" := OtherVal]}))
           lobby).
  - exists OtherVal. reflexivity.
  - exists OtherVal. reflexivity.
Defined.

(** X3.  When the upgrade succeeds but the userID in the context is not an
    int64, or the username is not a string, HandleConnections panics on the
    type assertion: no channel and no Client is allocated, and nothing
    reaches the hub. *)
Theorem HandleConnections_ill_typed_identity (c : Context) (conn : loc)
    (userID username : any) (σ : State) :
  Get c "userID" = Some userID →
  Get c "username" = Some username →
  (∀ uid, userID ≠ Int64Val uid) ∨ (∀ name, username ≠ StringVal name) →
  HandleConnections c (Some conn) σ = Panic TypeAssertion σ.
Proof.
  intros Hid Hname Hbad. unfold HandleConnections. rewrite Hid, Hname.
  destruct userID as [uid|s|], username as [z|name|]; try done.
  destruct Hbad as [Hbad|Hbad]; [by destruct (Hbad uid)|by destruct (Hbad name)].
Qed.

Lemma HandleConnections_ill_typed_identity_witness :
  HandleConnections
    (mkContext (<["userID" := StringVal "7"]> {["username" := StringVal "carol"]}))
    (Some 40%positive) lobby = Panic TypeAssertion lobby.
Proof.
  apply (HandleConnections_ill_typed_identity
           (mkContext (<["userID" := StringVal "7"]>
                         {["username" := StringVal "carol"]}))
           40 (StringVal "7") (StringVal "carol") lobby).
  - reflexivity.
  - reflexivity.
  - left. intros uid. discriminate.
Defined.

(** X4.  Whatever the request and however the handler ends, HandleConnections
    leaves the registry, the mutex, the history and every existing channel
    as they were; and a handler that returns has submitted nothing or one
    single event, the registration of the Client whose Reader and Writer it
    has started. *)
Theorem HandleConnections_leaves_the_hub_alone (c : Context)
    (upgrade : option loc) (σ : State) :
  clients (final (HandleConnections c upgrade σ)) = clients σ ∧
  mu (final (HandleConnections c upgrade σ)) = mu σ ∧
  trace (final (HandleConnections c upgrade σ)) = trace σ ∧
  (∀ ch q, chans σ !! ch = Some q →
           chans (final (HandleConnections c upgrade σ)) !! ch = Some q) ∧
  ∀ acts σ', HandleConnections c upgrade σ = Ok acts σ' →
    (submitted acts = [] ∧ spawned acts = None) ∨
    ∃ client, submitted acts = [register client] ∧
              spawned acts = Some client ∧
              Go (writing client) ∈ acts.
Proof.
  unfold HandleConnections.
  destruct (Get c "userID") as [userID|];
    [|repeat split; try done; intros acts σ' [= <- <-]; by left].
  destruct (Get c "username") as [username|];
    [|repeat split; try done; intros acts σ' [= <- <-]; by left].
  destruct upgrade as [conn|];
    [|repeat split; try done; intros acts σ' [= <- <-]; by left].
  destruct userID as [uid|s|], username as [z|name|];
    try (repeat split; done).
  destruct σ as [m b h s tr]. simpl. repeat split.
  - intros ch q Hq. rewrite lookup_insert_ne; [done|].
    intros <-. by rewrite (not_elem_of_dom_1 _ _ (is_fresh (dom h))) in Hq.
  - intros acts σ' [= <- <-]. right. eexists. split; [done|]. split; [done|].
    set_solver.
Qed.

(** ** The Reader, from start to end *)

Lemma submitted_app acts1 acts2 :
  submitted (acts1 ++ acts2) = submitted acts1 ++ submitted acts2.
Proof.
  induction acts1 as [|a acts1 IH]; [done|].
  destruct a; simpl; by rewrite ?IH.
Qed.

Lemma submitted_read_loop client inputs :
  submitted (read_loop client inputs) = routed_as client <$> decoded inputs.
Proof.
  induction inputs as [|[msg now|unexpected] rest IH]; simpl; [done| |].
  - by rewrite IH.
  - by destruct unexpected.
Qed.

Lemma decoded_stops inputs unexpected later :
  decoded (inputs ++ ReadError unexpected :: later) = decoded inputs.
Proof.
  induction inputs as [|[msg now|u] rest IH]; simpl; [done| |done].
  by rewrite IH.
Qed.

(** X5.  A Reader submits one route event for each frame decoded before its
    first failed read, in the order of arrival, each with the identity of its
    Client, the receiver and content of the frame and the clock reading of
    its iteration; nothing that arrives after a failed read is routed; and
    the Reader ends by submitting exactly one unregister event for its
    Client, after all its route events, and closing the connection last. *)
Theorem readMessages_submits (client : Client) (inputs : list read) :
  submitted (readMessages client inputs) =
    (routed_as client <$> decoded inputs) ++ [unregister client] ∧
  last (readMessages client inputs) = Some (ConnClose (Conn client)) ∧
  ∀ unexpected later,
    submitted (readMessages client (inputs ++ ReadError unexpected :: later)) =
    submitted (readMessages client inputs).
Proof.
  assert (∀ l, submitted (readMessages client l) =
               (routed_as client <$> decoded l) ++ [unregister client]) as Hsub.
  { intros l. unfold readMessages.
    by rewrite submitted_app, submitted_read_loop. }
  split; [apply Hsub|]. split.
  - unfold readMessages. by rewrite last_app.
  - intros unexpected later. by rewrite !Hsub, decoded_stops.
Qed.

(** ** Routing to a registered receiver *)

(** X6.  A route event whose receiver is registered with an open mailbox
    that has a free slot completes: the content of the message, and nothing
    else of it, is appended to the mailbox of the receiver; no other channel
    changes, so neither the sender nor any third Client is sent anything;
    the registry is unchanged and the mutex is free again. *)
Theorem route_hit_reaches_the_receiver_only (order : Ranger) (σ : State)
    (message : Message) (receiver : Client) :
  mu σ = false →
  clients σ !! ReceiverID message = Some receiver →
  has_room σ (Send receiver) = true →
  ∃ σ', Run_step order (broadcast message) σ = Ok tt σ' ∧
        mailbox σ' (Send receiver) =
          mailbox σ (Send receiver) ++ [Content message] ∧
        (∀ ch, ch ≠ Send receiver → chans σ' !! ch = chans σ !! ch) ∧
        clients σ' = clients σ ∧
        mu σ' = false ∧
        history (Run_step order (broadcast message)) σ =
          [OpLock; OpLookup (ReceiverID message);
           OpSend (Send receiver) (Content message); OpUnlock].
Proof.
  intros Hmu Hhit Hroom.
  pose proof (Run_step_broadcast order message σ Hmu) as Hstep.
  rewrite Hhit in Hstep. unfold has_room in Hroom.
  destruct (chans σ !! Send receiver) as [q|] eqn:Hq; [|done].
  apply andb_true_iff in Hroom as [Hopen%negb_true_iff Hlen%bool_decide_eq_true].
  rewrite Hopen in Hstep. rewrite decide_True in Hstep by done.
  eexists. split; [exact Hstep|].
  split; [unfold mailbox; simpl; by rewrite lookup_insert_eq, Hq|].
  split; [intros ch Hne; simpl; by rewrite lookup_insert_ne|].
  split; [done|]. split; [done|].
  unfold history. rewrite Hstep. simpl. by rewrite drop_app_length.
Qed.

Lemma route_hit_reaches_the_receiver_only_witness :
  ∃ σ', Run_step listed (broadcast (mkMessage 2 "bob" 1 "hello" 5)) lobby
          = Ok tt σ' ∧
        mailbox σ' (Send alice) = ["hello"] ∧
        mailbox σ' (Send bob) = [].
Proof.
  destruct (route_hit_reaches_the_receiver_only listed lobby
              (mkMessage 2 "bob" 1 "hello" 5) alice)
    as (σ' & Hrun & Hmail & Hrest & _).
  - reflexivity.
  - reflexivity.
  - reflexivity.
  - exists σ'. split; [exact Hrun|]. split; [exact Hmail|].
    unfold mailbox. rewrite (Hrest (Send bob)); [reflexivity|].
    vm_compute. discriminate.
Defined.

(** X7.  A route event whose receiver is registered with a mailbox that
    cannot take the frame stops the Hub Loop with the mutex held: on a full
    open mailbox the send blocks, on a closed mailbox it panics.  Either way
    the registry and every channel are as before. *)
Theorem route_stalls_with_the_mutex_held (order : Ranger) (σ : State)
    (message : Message) (receiver : Client) (q : Chan.t) :
  mu σ = false →
  clients σ !! ReceiverID message = Some receiver →
  chans σ !! Send receiver = Some q →
  (Chan.closed q = true ∨ Chan.cap q ≤ length (Chan.buf q))%nat →
  ∃ σ', Run_step order (broadcast message) σ =
          (if Chan.closed q then Panic SendOnClosedChannel σ' else Blocked σ') ∧
        mu σ' = true ∧
        clients σ' = clients σ ∧
        chans σ' = chans σ.
Proof.
  intros Hmu Hhit Hq Hstuck.
  pose proof (Run_step_broadcast order message σ Hmu) as Hstep.
  rewrite Hhit, Hq in Hstep. exists (looked_up message σ).
  split; [|done]. rewrite Hstep.
  destruct (Chan.closed q); [done|].
  destruct Hstuck as [?|Hfull]; [done|]. rewrite decide_False; [done|lia].
Qed.

Lemma route_stalls_with_the_mutex_held_witness :
  ∃ σ', Run_step listed (broadcast (mkMessage 2 "bob" 1 "hello" 5))
          crowded_lobby = Blocked σ' ∧
        mu σ' = true.
Proof.
  destruct (route_stalls_with_the_mutex_held listed crowded_lobby
              (mkMessage 2 "bob" 1 "hello" 5) alice
              (Chan.mk (replicate 256 "hi") 256 false))
    as (σ' & Hrun & Hmu & _).
  - reflexivity.
  - reflexivity.
  - reflexivity.
  - right. vm_compute. lia.
  - exists σ'. split; [exact Hrun|exact Hmu].
Defined.

(** ** Registration, unregistration and routing together *)

(** The registration of [B], completed. *)
Lemma register_ok (order : Ranger) (σ : State) (B : Client) :
  mu σ = false →
  distinct_mailboxes (<[UserID B := B]> (clients σ)) →
  map_Forall (λ id c, id ≠ UserID B → has_room σ (Send c) = true) (clients σ) →
  ∃ σ', Run_step order (register B) σ = Ok tt σ' ∧
        clients σ' = <[UserID B := B]> (clients σ) ∧
        mu σ' = false ∧
        (∀ ch, (∀ id c, clients σ' !! id = Some c → id ≠ UserID B → Send c ≠ ch) →
               chans σ' !! ch = chans σ !! ch).
Proof.
  intros Hmu Hdistinct Hready.
  rewrite Run_step_register by done.
  destruct (fan_out_ok order (UserID B) (Username B) true (stored B σ))
    as (σ' & Hrun & Hclients & Hmu' & _ & Hrest); [done| |].
  { simpl. intros id c Hin Hne. rewrite lookup_insert_ne in Hin by done.
    by apply (Hready id c). }
  exists σ'. split; [done|]. split; [done|]. split; [done|].
  intros ch Hother. rewrite Hrest; [done|].
  intros id c Hin. apply Hother. by rewrite Hclients.
Qed.

(** The unregistration of [B], completed. *)
Lemma unregister_ok (order : Ranger) (σ : State) (B : Client) :
  mu σ = false →
  distinct_mailboxes (<[UserID B := B]> (clients σ)) →
  map_Forall (λ id c, id ≠ UserID B → has_room σ (Send c) = true) (clients σ) →
  (is_Some (clients σ !! UserID B) → is_open σ (Send B) = true) →
  ∃ σ', Run_step order (unregister B) σ = Ok tt σ' ∧
        clients σ' = delete (UserID B) (clients σ) ∧
        mu σ' = false ∧
        mailbox σ' (Send B) = mailbox σ (Send B) ∧
        (is_Some (clients σ !! UserID B) → is_open σ' (Send B) = false) ∧
        (is_Some (clients σ !! UserID B) →
         chans σ' !! Send B = Chan.shut <$> chans σ !! Send B).
Proof.
  intros Hmu Hdistinct Hready Hopen. rewrite Run_step_unregister by done.
  assert (∀ id c, delete (UserID B) (clients σ) !! id = Some c →
                  id ≠ UserID B ∧ clients σ !! id = Some c ∧ Send c ≠ Send B)
    as Hother.
  { intros id c Hin. apply lookup_delete_Some in Hin as [Hne Hin].
    split; [done|]. split; [done|]. intros Hsend. apply Hne.
    apply (distinct_mailboxes_inj _ (UserID B) id B c Hdistinct);
      [apply lookup_insert_eq|by rewrite lookup_insert_ne|done]. }
  pose proof (distinct_mailboxes_delete _ _ _ Hdistinct) as Hdistinct'.
  destruct (clients σ !! UserID B) as [c0|] eqn:Hentry.
  - specialize (Hopen (mk_is_Some _ _ eq_refl)). unfold is_open in Hopen.
    destruct (chans σ !! Send B) as [q|] eqn:Hq; [|done].
    apply negb_true_iff in Hopen. rewrite Hopen.
    destruct (fan_out_ok order (UserID B) (Username B) false (removed B q σ))
      as (σ' & Hrun & Hclients & Hmu' & _ & Hrest); [done| |].
    { simpl. intros id c Hin _. destruct (Hother id c Hin) as (Hne & Hin' & Hsend).
      unfold has_room. simpl. rewrite lookup_insert_ne by done.
      by apply (Hready id c). }
    assert (chans σ' !! Send B = Some (Chan.shut q)) as Hshut.
    { rewrite Hrest; [simpl; by rewrite lookup_insert_eq|].
      simpl. intros id c Hin _. by destruct (Hother id c Hin) as (_ & _ & ?). }
    exists σ'. split; [done|]. split; [done|]. split; [done|].
    unfold mailbox, is_open. rewrite Hshut, Hq. done.
  - rewrite (delete_id _ _ Hentry) in Hother, Hdistinct'.
    destruct (fan_out_ok order (UserID B) (Username B) false (skipped B σ))
      as (σ' & Hrun & Hclients & Hmu' & _ & Hrest); [done| |].
    { simpl. intros id c Hin Hne. by apply (Hready id c). }
    exists σ'. split; [done|]. split; [by rewrite delete_id|].
    split; [done|]. split; [|split; by intros [? ?]].
    unfold mailbox. rewrite Hrest; [done|].
    simpl. intros id c Hin _. by destruct (Hother id c Hin) as (_ & _ & ?).
Qed.

Lemma Run_two order1 ev1 order2 ev2 σ σ1 :
  Run_step order1 ev1 σ = Ok tt σ1 →
  Run [(order1, ev1); (order2, ev2)] σ = Run_step order2 ev2 σ1.
Proof.
  intros Hfirst. simpl. rewrite (bind_Ok _ _ _ _ _ Hfirst).
  unfold mbind, M_bind, mret, M_ret.
  by destruct (Run_step order2 ev2 σ1) as [[] ?| |].
Qed.

(** X8.  Once the hub has processed register(B), a message routed to the id
    of B is appended to the mailbox of B, also when B took the place of an
    older Client under that id: channels that belong to no registered Client,
    such as the mailbox of the Client that was replaced, receive nothing. *)
Theorem register_then_route_delivers (order1 order2 : Ranger) (σ : State)
    (B : Client) (message : Message) :
  mu σ = false →
  distinct_mailboxes (<[UserID B := B]> (clients σ)) →
  map_Forall (λ id c, id ≠ UserID B → has_room σ (Send c) = true) (clients σ) →
  has_room σ (Send B) = true →
  ReceiverID message = UserID B →
  ∃ σ2, Run [(order1, register B); (order2, broadcast message)] σ = Ok tt σ2 ∧
        clients σ2 !! UserID B = Some B ∧
        mailbox σ2 (Send B) = mailbox σ (Send B) ++ [Content message] ∧
        ∀ ch, (∀ id c, clients σ2 !! id = Some c → Send c ≠ ch) →
              chans σ2 !! ch = chans σ !! ch.
Proof.
  intros Hmu Hdistinct Hready Hroom Hto.
  destruct (register_ok order1 σ B Hmu Hdistinct Hready)
    as (σ1 & Hreg & Hclients & Hmu1 & Hrest).
  assert (chans σ1 !! Send B = chans σ !! Send B) as Hsame.
  { apply Hrest. intros id c Hin Hne Hsend. apply Hne. rewrite Hclients in Hin.
    apply (distinct_mailboxes_inj _ id (UserID B) c B Hdistinct);
      [done|apply lookup_insert_eq|done]. }
  rewrite (Run_two _ _ _ _ _ _ Hreg).
  pose proof (Run_step_broadcast order2 message σ1 Hmu1) as Hstep.
  rewrite Hto, Hclients, lookup_insert_eq, Hsame in Hstep.
  unfold has_room in Hroom.
  destruct (chans σ !! Send B) as [q|] eqn:Hq; [|done].
  apply andb_true_iff in Hroom as [Hopen%negb_true_iff Hlen%bool_decide_eq_true].
  rewrite Hopen in Hstep. rewrite decide_True in Hstep by done.
  eexists. split; [exact Hstep|]. simpl.
  split; [apply lookup_insert_eq|].
  split; [unfold mailbox; simpl; by rewrite lookup_insert_eq, Hq|].
  intros ch Hout. rewrite lookup_insert_ne.
  - apply Hrest. intros id c Hin _. rewrite Hclients in Hin.
    by apply (Hout id c).
  - intros <-. apply (Hout (UserID B) B); [|done]. apply lookup_insert_eq.
Qed.

Lemma register_then_route_delivers_witness :
  ∃ σ2, Run [(listed, register bob);
             (listed, broadcast (mkMessage 1 "alice" 2 "hello" 5))] lobby
          = Ok tt σ2 ∧
        mailbox σ2 (Send bob) = ["hello"].
Proof.
  destruct (register_then_route_delivers listed listed lobby bob
              (mkMessage 1 "alice" 2 "hello" 5))
    as (σ2 & Hrun & _ & Hmail & _).
  - reflexivity.
  - unfold distinct_mailboxes. apply (bool_decide_unpack _). vm_compute. exact I.
  - apply (bool_decide_unpack _). vm_compute. exact I.
  - reflexivity.
  - reflexivity.
  - exists σ2. split; [exact Hrun|exact Hmail].
Defined.

(** X9.  Once the hub has processed unregister(B), a message routed to the
    id of B is dropped: the route completes, sends on no channel, and the
    mailbox of B, closed if B had an entry, holds what it held before. *)
Theorem unregister_then_route_misses (order1 order2 : Ranger) (σ : State)
    (B : Client) (message : Message) :
  mu σ = false →
  distinct_mailboxes (<[UserID B := B]> (clients σ)) →
  map_Forall (λ id c, id ≠ UserID B → has_room σ (Send c) = true) (clients σ) →
  (is_Some (clients σ !! UserID B) → is_open σ (Send B) = true) →
  ReceiverID message = UserID B →
  ∃ σ1 σ2,
    Run_step order1 (unregister B) σ = Ok tt σ1 ∧
    Run [(order1, unregister B); (order2, broadcast message)] σ = Ok tt σ2 ∧
    chans σ2 = chans σ1 ∧
    clients σ2 !! UserID B = None ∧
    mailbox σ2 (Send B) = mailbox σ (Send B) ∧
    (is_Some (clients σ !! UserID B) → is_open σ2 (Send B) = false).
Proof.
  intros Hmu Hdistinct Hready Hopen Hto.
  destruct (unregister_ok order1 σ B Hmu Hdistinct Hready Hopen)
    as (σ1 & Hunreg & Hclients & Hmu1 & Hmail & Hclosed & _).
  exists σ1. rewrite (Run_two _ _ _ _ _ _ Hunreg).
  pose proof (Run_step_broadcast order2 message σ1 Hmu1) as Hstep.
  rewrite Hto, Hclients, lookup_delete_eq in Hstep.
  eexists. split; [done|]. split; [exact Hstep|]. simpl.
  split; [done|]. split; [apply lookup_delete_eq|].
  split; [exact Hmail|exact Hclosed].
Qed.

Lemma unregister_then_route_misses_witness :
  ∃ σ1 σ2,
    Run_step listed (unregister bob) parlour = Ok tt σ1 ∧
    Run [(listed, unregister bob);
         (listed, broadcast (mkMessage 1 "alice" 2 "hello" 5))] parlour
      = Ok tt σ2 ∧
    mailbox σ2 (Send bob) = [].
Proof.
  destruct (unregister_then_route_misses listed listed parlour bob
              (mkMessage 1 "alice" 2 "hello" 5))
    as (σ1 & σ2 & Hfirst & Hrun & _ & _ & Hmail & _).
  - reflexivity.
  - unfold distinct_mailboxes. apply (bool_decide_unpack _). vm_compute. exact I.
  - apply (bool_decide_unpack _). vm_compute. exact I.
  - intros _. reflexivity.
  - reflexivity.
  - exists σ1, σ2. split; [exact Hfirst|]. split; [exact Hrun|exact Hmail].
Defined.

(** ** The registry along a run of the hub *)

Lemma Run_step_locked order ev σ :
  mu σ = true → Run_step order ev σ = Blocked σ.
Proof.
  intros Hmu. destruct ev; unfold Run_step, mbind, M_bind, Lock; by rewrite Hmu.
Qed.

(** However a step ends, it leaves the registry as its event says. *)
Lemma Run_step_final_registry order ev σ :
  mu σ = false →
  clients (final (Run_step order ev σ)) = registry_step (clients σ) ev.
Proof.
  intros Hmu. destruct ev as [client|client|message];
    unfold registry_step.
  - rewrite Run_step_register by done.
    by destruct (notify_loop_frame (UserID client) (Username client) true
                   (order (<[UserID client := client]> (clients σ)))
                   (stored client σ)) as (-> & _).
  - rewrite Run_step_unregister by done.
    destruct (clients σ !! UserID client) as [c|] eqn:Hentry.
    + destruct (chans σ !! Send client) as [q|]; [|done].
      destruct (Chan.closed q); [done|].
      by destruct (notify_loop_frame (UserID client) (Username client) false
                     (order (delete (UserID client) (clients σ)))
                     (removed client q σ)) as (-> & _).
    + destruct (notify_loop_frame (UserID client) (Username client) false
                  (order (clients σ)) (skipped client σ)) as (-> & _).
      simpl. by rewrite delete_id.
  - rewrite Run_step_broadcast by done.
    destruct (clients σ !! ReceiverID message) as [receiver|]; [|done].
    destruct (chans σ !! Send receiver) as [q|]; [|done].
    destruct (Chan.closed q); [done|]. by destruct (decide _).
Qed.

(** A step that completes has released the mutex. *)
Lemma Run_step_releases order ev σ σ' :
  mu σ = false → Run_step order ev σ = Ok tt σ' → mu σ' = false.
Proof.
  intros Hmu. destruct ev as [client|client|message].
  - rewrite Run_step_register by done. intros Hrun.
    destruct (notify_loop_frame (UserID client) (Username client) true
                (order (<[UserID client := client]> (clients σ)))
                (stored client σ)) as (_ & Hmu' & _).
    by rewrite Hrun in Hmu'.
  - rewrite Run_step_unregister by done.
    destruct (clients σ !! UserID client) as [c|].
    + destruct (chans σ !! Send client) as [q|]; [|done].
      destruct (Chan.closed q); [done|]. intros Hrun.
      destruct (notify_loop_frame (UserID client) (Username client) false
                  (order (delete (UserID client) (clients σ)))
                  (removed client q σ)) as (_ & Hmu' & _).
      by rewrite Hrun in Hmu'.
    + intros Hrun.
      destruct (notify_loop_frame (UserID client) (Username client) false
                  (order (clients σ)) (skipped client σ)) as (_ & Hmu' & _).
      by rewrite Hrun in Hmu'.
  - rewrite Run_step_broadcast by done.
    destruct (clients σ !! ReceiverID message) as [receiver|];
      [|by intros [= <-]].
    destruct (chans σ !! Send receiver) as [q|]; [|done].
    destruct (Chan.closed q); [done|].
    destruct (decide _); [by intros [= <-]|done].
Qed.

Lemma Run_cons order ev rest σ :
  Run ((order, ev) :: rest) σ =
    match Run_step order ev σ with
    | Ok _ σ1 => Run rest σ1
    | Panic why σ1 => Panic why σ1
    | Blocked σ1 => Blocked σ1
    end.
Proof. done. Qed.

(** X10.  When the hub, started with its mutex free, has processed a
    sequence of events to the end, the registry is the one the events
    describe, whatever the range orders and the traffic were: each
    registration files its Client under its id, over any earlier entry; each
    unregistration removes what is filed under the id of its Client; routes
    change nothing.  The mutex is free again. *)
Theorem Run_registry_follows_the_events (evs : list (Ranger * event))
    (σ σ' : State) :
  mu σ = false →
  Run evs σ = Ok tt σ' →
  clients σ' = registry_after evs.*2 (clients σ) ∧ mu σ' = false.
Proof.
  revert σ. induction evs as [|[order ev] rest IH]; intros σ Hmu.
  { by intros [= <-]. }
  rewrite Run_cons.
  destruct (Run_step order ev σ) as [[] σ1| |] eqn:Hstep; [|done|done].
  intros Hrest.
  pose proof (Run_step_final_registry order ev σ Hmu) as Hregistry.
  rewrite Hstep in Hregistry. simpl in Hregistry.
  destruct (IH σ1 (Run_step_releases _ _ _ _ Hmu Hstep) Hrest) as [-> ->].
  split; [|done]. simpl. unfold registry_after. simpl. by rewrite Hregistry.
Qed.

Lemma Run_registry_follows_the_events_witness :
  ∃ σ', Run [(listed, register bob); (listed, unregister alice)] lobby
          = Ok tt σ' ∧
        clients σ' = delete 1 (<[2 := bob]> {[1 := alice]}).
Proof.
  eexists. split; [vm_compute; reflexivity|].
  apply (Run_registry_follows_the_events
           [(listed, register bob); (listed, unregister alice)] lobby).
  - reflexivity.
  - vm_compute. reflexivity.
Defined.

Lemma keyed_registry_step m ev : keyed m → keyed (registry_step m ev).
Proof.
  unfold keyed. intros Hkeyed. destruct ev as [client|client|message]; simpl.
  - by apply map_Forall_insert_2.
  - by apply map_Forall_delete.
  - done.
Qed.

(** X11.  The hub keeps every entry of the registry filed under the id of
    its own Client: if that holds when Run starts, it holds when Run has
    processed any sequence of events, and also in the state in which Run
    panics or blocks.  So the Client a route finds under a receiver id is a
    Client of that user. *)
Theorem Run_keeps_the_registry_keyed (evs : list (Ranger * event)) (σ : State) :
  keyed (clients σ) →
  keyed (clients (final (Run evs σ))).
Proof.
  revert σ. induction evs as [|[order ev] rest IH]; intros σ Hkeyed; [done|].
  rewrite Run_cons. destruct (mu σ) eqn:Hmu.
  { by rewrite Run_step_locked. }
  pose proof (Run_step_final_registry order ev σ Hmu) as Hregistry.
  pose proof (keyed_registry_step _ ev Hkeyed) as Hkeyed'.
  rewrite <- Hregistry in Hkeyed'.
  destruct (Run_step order ev σ) as [[] σ1| |]; [by apply IH|done|done].
Qed.

Lemma Run_keeps_the_registry_keyed_witness :
  keyed (clients (final (Run [(listed, register bob);
                              (listed, unregister alice);
                              (listed, unregister alice)] lobby))).
Proof.
  apply (Run_keeps_the_registry_keyed
           [(listed, register bob); (listed, unregister alice);
            (listed, unregister alice)] lobby).
  apply (bool_decide_unpack _). vm_compute. exact I.
Defined.

(** ** The Writer drains, fails and keeps to itself *)

Lemma writeMessages_turn_relays client f rest cap closed σ :
  chans σ !! Send client = Some (Chan.mk (f :: rest) cap closed) →
  writeMessages_turn client true σ =
    Ok Running (after_writer client (Chan.mk rest cap closed) (relay client f) σ).
Proof.
  intros Hq. destruct σ as [m b h s tr]. simpl in Hq.
  unfold writeMessages_turn, mbind, M_bind, chan_recv, conn_write, mret, M_ret,
    after_writer, log, with_chans. simpl. rewrite Hq. simpl.
  by rewrite <- !app_assoc.
Qed.

Lemma writeMessages_turn_fails client f rest cap closed σ :
  chans σ !! Send client = Some (Chan.mk (f :: rest) cap closed) →
  writeMessages_turn client false σ =
    Ok Exited (after_writer client (Chan.mk rest cap closed)
                 [OpRecv (Send client) f; OpConnClose (Conn client)] σ).
Proof.
  intros Hq. destruct σ as [m b h s tr]. simpl in Hq.
  unfold writeMessages_turn, mbind, M_bind, chan_recv, conn_close, mret, M_ret,
    after_writer, log, with_chans. simpl. rewrite Hq. simpl.
  by rewrite <- !app_assoc.
Qed.

Lemma writeMessages_turn_ends client cap write_ok σ :
  chans σ !! Send client = Some (Chan.mk [] cap true) →
  writeMessages_turn client write_ok σ =
    Ok Exited (mkState (clients σ) (mu σ) (chans σ) (structs σ)
                 (trace σ ++ [OpConnClose (Conn client)])).
Proof.
  intros Hq. destruct σ as [m b h s tr]. simpl in Hq.
  unfold writeMessages_turn, mbind, M_bind, chan_recv, conn_close, mret, M_ret,
    log. simpl. by rewrite Hq.
Qed.

Lemma after_writer_twice client q1 q2 ops1 ops2 σ :
  after_writer client q2 ops2 (after_writer client q1 ops1 σ) =
  after_writer client q2 (ops1 ++ ops2) σ.
Proof.
  unfold after_writer. simpl. by rewrite insert_insert_eq, <- app_assoc.
Qed.

(** As long as the writes succeed, the Writer relays the frames of its
    mailbox one by one, oldest first. *)
Lemma writeMessages_relays client good rest cap closed writes σ :
  chans σ !! Send client = Some (Chan.mk (good ++ rest) cap closed) →
  good ≠ [] →
  writeMessages client (replicate (length good) true ++ writes) σ =
    writeMessages client writes
      (after_writer client (Chan.mk rest cap closed)
         (concat (relay client <$> good)) σ).
Proof.
  revert σ. induction good as [|f good IH]; intros σ Hq Hne; [done|].
  simpl. rewrite (bind_Ok _ _ _ _ _
                    (writeMessages_turn_relays client f (good ++ rest) cap closed σ Hq)).
  destruct good as [|f' good'].
  - simpl. done.
  - rewrite IH; [|apply lookup_insert_eq|done].
    by rewrite after_writer_twice.
Qed.

Lemma wire_app conn tr1 tr2 :
  wire conn (tr1 ++ tr2) = wire conn tr1 ++ wire conn tr2.
Proof.
  induction tr1 as [|o tr1 IH]; [done|].
  destruct o; simpl; try done. destruct (decide _); simpl; by rewrite IH.
Qed.

Lemma wire_relays client fs :
  wire (Conn client) (concat (relay client <$> fs)) = fs.
Proof.
  induction fs as [|f fs IH]; [done|].
  change (concat (relay client <$> f :: fs))
    with (relay client f ++ concat (relay client <$> fs)).
  rewrite wire_app, IH. simpl. by rewrite decide_True.
Qed.

Lemma writeMessages_drains client fs cap last_ok more σ :
  chans σ !! Send client = Some (Chan.mk fs cap true) →
  ∃ σ',
    writeMessages client (replicate (length fs) true ++ last_ok :: more) σ
      = Ok Exited σ' ∧
    trace σ' = trace σ ++ concat (relay client <$> fs) ++
                 [OpConnClose (Conn client)] ∧
    chans σ' = <[Send client := Chan.mk [] cap true]> (chans σ) ∧
    clients σ' = clients σ.
Proof.
  intros Hq. destruct fs as [|f fs'].
  - simpl. rewrite (bind_Ok _ _ _ _ _
                      (writeMessages_turn_ends client cap last_ok σ Hq)).
    eexists. split; [done|]. simpl. split; [done|]. split; [|done].
    by rewrite insert_id.
  - rewrite (writeMessages_relays client (f :: fs') [] cap true);
      [|by rewrite app_nil_r|done].
    simpl writeMessages.
    rewrite (bind_Ok _ _ _ _ _
               (writeMessages_turn_ends client cap last_ok _
                  (lookup_insert_eq _ _ _))).
    eexists. split; [done|]. simpl. split; [by rewrite <- !app_assoc|]. done.
Qed.

(** X12.  A Writer whose mailbox has been closed with frames still queued
    writes every one of them to its connection, oldest first, as long as the
    writes succeed; it then finds the mailbox closed and empty, leaves the
    loop and closes the connection.  Nothing queued before the close is
    lost, and the Writer ends. *)
Theorem writer_drains_a_closed_mailbox (client : Client) (fs : list frame)
    (cap : nat) (last_ok : bool) (more : list bool) (σ : State) :
  chans σ !! Send client = Some (Chan.mk fs cap true) →
  ∃ σ',
    writeMessages client (replicate (length fs) true ++ last_ok :: more) σ
      = Ok Exited σ' ∧
    history (writeMessages client
               (replicate (length fs) true ++ last_ok :: more)) σ
      = concat (relay client <$> fs) ++ [OpConnClose (Conn client)] ∧
    wire (Conn client) (trace σ') = wire (Conn client) (trace σ) ++ fs ∧
    mailbox σ' (Send client) = [] ∧
    clients σ' = clients σ.
Proof.
  intros Hq.
  destruct (writeMessages_drains client fs cap last_ok more σ Hq)
    as (σ' & Hrun & Htrace & Hchans & Hclients).
  exists σ'. split; [done|]. split.
  { unfold history. rewrite Hrun. simpl. by rewrite Htrace, drop_app_length. }
  split.
  { rewrite Htrace, !wire_app, wire_relays. simpl. by rewrite app_nil_r. }
  split; [|done]. unfold mailbox. by rewrite Hchans, lookup_insert_eq.
Qed.

Lemma writer_drains_a_closed_mailbox_witness :
  ∃ σ', writeMessages alice [true; true; true] alice_gone = Ok Exited σ' ∧
        wire (Conn alice) (trace σ') = ["one"; "two"].
Proof.
  destruct (writer_drains_a_closed_mailbox alice ["one"; "two"] 256 true []
              alice_gone) as (σ' & Hrun & _ & Hwire & _).
  - reflexivity.
  - exists σ'. split; [exact Hrun|exact Hwire].
Defined.

(** X13.  When a write fails, the Writer leaves the loop and closes the
    connection: the frames before the failed one have been written in order,
    the frame of the failed write has been taken from the mailbox and is
    lost, and the frames behind it stay queued and are never written.  The
    Writer does not unregister its Client and does not close the mailbox:
    the entry and the channel stay as the hub left them. *)
Theorem writer_stops_at_a_failed_write (client : Client)
    (good : list frame) (f : frame) (rest : list frame) (cap : nat)
    (closed : bool) (more : list bool) (σ : State) :
  chans σ !! Send client = Some (Chan.mk (good ++ f :: rest) cap closed) →
  ∃ σ',
    writeMessages client (replicate (length good) true ++ false :: more) σ
      = Ok Exited σ' ∧
    history (writeMessages client
               (replicate (length good) true ++ false :: more)) σ
      = concat (relay client <$> good) ++
        [OpRecv (Send client) f; OpConnClose (Conn client)] ∧
    wire (Conn client) (trace σ') = wire (Conn client) (trace σ) ++ good ∧
    chans σ' !! Send client = Some (Chan.mk rest cap closed) ∧
    clients σ' = clients σ.
Proof.
  intros Hq.
  assert (∃ σ',
    writeMessages client (replicate (length good) true ++ false :: more) σ
      = Ok Exited σ' ∧
    trace σ' = trace σ ++ concat (relay client <$> good) ++
                 [OpRecv (Send client) f; OpConnClose (Conn client)] ∧
    chans σ' !! Send client = Some (Chan.mk rest cap closed) ∧
    clients σ' = clients σ)
    as (σ' & Hrun & Htrace & Hchan & Hclients).
  { destruct good as [|g good'].
    - simpl. rewrite (bind_Ok _ _ _ _ _
                        (writeMessages_turn_fails client f rest cap closed σ Hq)).
      eexists. split; [done|]. simpl. split; [done|]. split; [|done].
      apply lookup_insert_eq.
    - rewrite (writeMessages_relays client (g :: good') (f :: rest) cap closed);
        [|done|done].
      simpl writeMessages.
      rewrite (bind_Ok _ _ _ _ _
                 (writeMessages_turn_fails client f rest cap closed _
                    (lookup_insert_eq _ _ _))).
      eexists. split; [done|]. simpl. split; [by rewrite <- !app_assoc|].
      split; [|done]. by rewrite insert_insert_eq, lookup_insert_eq. }
  exists σ'. split; [done|]. split.
  { unfold history. rewrite Hrun. simpl. by rewrite Htrace, drop_app_length. }
  split; [|done].
  rewrite Htrace, !wire_app, wire_relays. simpl. by rewrite app_nil_r.
Qed.

Lemma writer_stops_at_a_failed_write_witness :
  ∃ σ', writeMessages alice [true; false; true]
          (mkState {[1 := alice]} false
             {[1%positive := Chan.mk ["one"; "two"; "three"] 256 false]}
             {[1%positive]} []) = Ok Exited σ' ∧
        wire (Conn alice) (trace σ') = ["one"] ∧
        mailbox σ' (Send alice) = ["three"] ∧
        clients σ' !! 1 = Some alice.
Proof.
  destruct (writer_stops_at_a_failed_write alice ["one"] "two" ["three"] 256
              false [true]
              (mkState {[1 := alice]} false
                 {[1%positive := Chan.mk ["one"; "two"; "three"] 256 false]}
                 {[1%positive]} []))
    as (σ' & Hrun & _ & Hwire & Hchan & Hclients).
  - reflexivity.
  - exists σ'. split; [exact Hrun|]. split; [exact Hwire|].
    split; [unfold mailbox; rewrite Hchan; reflexivity|].
    rewrite Hclients. reflexivity.
Defined.

Lemma writeMessages_frame client writes σ :
  ∃ ops,
    trace (final (writeMessages client writes σ)) = trace σ ++ ops ∧
    forallb (writer_op client) ops = true ∧
    wire (Conn client) ops `prefix_of` mailbox σ (Send client) ∧
    clients (final (writeMessages client writes σ)) = clients σ ∧
    mu (final (writeMessages client writes σ)) = mu σ ∧
    (∀ ch, ch ≠ Send client →
           chans (final (writeMessages client writes σ)) !! ch = chans σ !! ch) ∧
    is_open (final (writeMessages client writes σ)) (Send client)
      = is_open σ (Send client).
Proof.
  revert σ. induction writes as [|write_ok writes IH]; intros σ.
  { exists []. rewrite app_nil_r. repeat split; try done. apply prefix_nil. }
  simpl. unfold mbind, M_bind.
  destruct (chans σ !! Send client) as [[buf cap closed]|] eqn:Hq.
  2:{ unfold writeMessages_turn, mbind, M_bind, chan_recv. rewrite Hq.
      exists []. rewrite app_nil_r. repeat split; try done. apply prefix_nil. }
  destruct buf as [|f rest].
  { unfold writeMessages_turn, mbind, M_bind, chan_recv. rewrite Hq. simpl.
    destruct closed; simpl.
    - exists [OpConnClose (Conn client)]. simpl.
      rewrite bool_decide_eq_true_2 by done.
      repeat split; try done. apply prefix_nil.
    - exists []. rewrite app_nil_r. repeat split; try done. apply prefix_nil. }
  destruct write_ok.
  - rewrite (writeMessages_turn_relays client f rest cap closed σ Hq).
    destruct (IH (after_writer client (Chan.mk rest cap closed)
                    (relay client f) σ))
      as (ops & Htrace & Hops & Hwire & Hclients & Hmu & Hrest & Hopen).
    exists (relay client f ++ ops).
    split; [rewrite Htrace; simpl; by rewrite <- app_assoc|].
    split; [simpl; by rewrite !bool_decide_eq_true_2|].
    split.
    { rewrite wire_app. simpl. rewrite decide_True by done. simpl.
      unfold mailbox in *. simpl in Hwire. rewrite lookup_insert_eq in Hwire.
      rewrite Hq. simpl in *. by apply prefix_cons. }
    split; [done|]. split; [done|]. split.
    { intros ch Hne. rewrite (Hrest ch Hne). simpl. by rewrite lookup_insert_ne. }
    rewrite Hopen. unfold is_open. simpl. by rewrite lookup_insert_eq, Hq.
  - rewrite (writeMessages_turn_fails client f rest cap closed σ Hq). simpl.
    exists [OpRecv (Send client) f; OpConnClose (Conn client)].
    split; [done|]. split; [simpl; by rewrite !bool_decide_eq_true_2|].
    split; [apply prefix_nil|]. split; [done|]. split; [done|]. split.
    { intros ch Hne. by rewrite lookup_insert_ne. }
    unfold is_open. simpl. by rewrite lookup_insert_eq, Hq.
Qed.

(** X14.  However long a Writer runs, whatever its writes do and however it
    ends, it only receives from the mailbox of its own Client, writes to and
    closes the connection of its own Client; the frames it writes are an
    initial part, in order, of what the mailbox held; and it leaves the
    registry, the mutex and every other channel alone, and neither closes
    nor reopens its mailbox. *)
Theorem writer_keeps_to_its_own_client (client : Client) (writes : list bool)
    (σ : State) :
  forallb (writer_op client) (history (writeMessages client writes) σ) = true ∧
  wire (Conn client) (history (writeMessages client writes) σ)
    `prefix_of` mailbox σ (Send client) ∧
  clients (final (writeMessages client writes σ)) = clients σ ∧
  mu (final (writeMessages client writes σ)) = mu σ ∧
  (∀ ch, ch ≠ Send client →
         chans (final (writeMessages client writes σ)) !! ch = chans σ !! ch) ∧
  is_open (final (writeMessages client writes σ)) (Send client)
    = is_open σ (Send client).
Proof.
  destruct (writeMessages_frame client writes σ)
    as (ops & Htrace & Hops & Hwire & Hrest).
  unfold history. rewrite Htrace, drop_app_length.
  split; [exact Hops|]. split; [exact Hwire|exact Hrest].
Qed.

(** ** A connection is torn down *)

(** X15.  Teardown of a registered Client whose mailbox still holds frames:
    the hub processes the unregister event of its Reader, which removes the
    entry and closes the mailbox without discarding what is queued; the
    Writer then, as long as its writes succeed, writes the queued frames in
    order, finds the mailbox closed and empty, and ends by closing the
    connection.  Afterwards the id has no entry and the mailbox is closed
    and empty. *)
Theorem teardown_delivers_what_was_queued (order : Ranger) (σ : State)
    (client : Client) (fs : list frame) (cap : nat) (last_ok : bool)
    (more : list bool) :
  mu σ = false →
  distinct_mailboxes (clients σ) →
  map_Forall (λ id c, id ≠ UserID client → has_room σ (Send c) = true)
    (clients σ) →
  clients σ !! UserID client = Some client →
  chans σ !! Send client = Some (Chan.mk fs cap false) →
  ∃ σ1 σ2,
    Run_step order (unregister client) σ = Ok tt σ1 ∧
    writeMessages client (replicate (length fs) true ++ last_ok :: more) σ1
      = Ok Exited σ2 ∧
    wire (Conn client)
      (history (writeMessages client
                  (replicate (length fs) true ++ last_ok :: more)) σ1) = fs ∧
    last (trace σ2) = Some (OpConnClose (Conn client)) ∧
    clients σ2 !! UserID client = None ∧
    mailbox σ2 (Send client) = [] ∧
    is_open σ2 (Send client) = false.
Proof.
  intros Hmu Hdistinct Hready Hentry Hq.
  destruct (unregister_ok order σ client Hmu) as
    (σ1 & Hunreg & Hclients1 & _ & _ & _ & Hshut).
  { by rewrite insert_id. }
  { done. }
  { intros _. unfold is_open. by rewrite Hq. }
  specialize (Hshut (mk_is_Some _ _ Hentry)). rewrite Hq in Hshut.
  destruct (writeMessages_drains client fs cap last_ok more σ1 Hshut)
    as (σ2 & Hrun & Htrace & Hchans & Hclients2).
  exists σ1, σ2. split; [done|]. split; [done|]. split.
  { unfold history. rewrite Hrun. simpl. rewrite Htrace, drop_app_length.
    rewrite wire_app, wire_relays. simpl. by rewrite app_nil_r. }
  split; [by rewrite Htrace, !last_app|].
  split; [rewrite Hclients2, Hclients1; apply lookup_delete_eq|].
  unfold mailbox, is_open. by rewrite Hchans, lookup_insert_eq.
Qed.

Lemma teardown_delivers_what_was_queued_witness :
  ∃ σ1 σ2,
    Run_step listed (unregister alice)
      (mkState {[1 := alice]} false
         {[1%positive := Chan.mk ["one"; "two"] 256 false]} {[1%positive]} [])
      = Ok tt σ1 ∧
    writeMessages alice [true; true; true] σ1 = Ok Exited σ2 ∧
    clients σ2 !! 1 = None ∧
    mailbox σ2 (Send alice) = [].
Proof.
  destruct (teardown_delivers_what_was_queued listed
              (mkState {[1 := alice]} false
                 {[1%positive := Chan.mk ["one"; "two"] 256 false]}
                 {[1%positive]} [])
              alice ["one"; "two"] 256 true [])
    as (σ1 & σ2 & Hunreg & Hrun & _ & _ & Hgone & Hmail & _).
  - reflexivity.
  - unfold distinct_mailboxes. apply (bool_decide_unpack _). vm_compute. exact I.
  - apply (bool_decide_unpack _). vm_compute. exact I.
  - reflexivity.
  - reflexivity.
  - exists σ1, σ2. split; [exact Hunreg|]. split; [exact Hrun|].
    split; [exact Hgone|exact Hmail].
Defined.

(** ** The only mailbox the hub closes *)

Lemma notify_loop_open entries userID username online σ ch :
  is_open (final (notify_loop entries userID username online σ)) ch
    = is_open σ ch.
Proof.
  revert σ. induction entries as [|[id client] rest IH]; intros σ; [done|].
  simpl. unfold mbind, M_bind. destruct (decide (id ≠ userID)); simpl; [|apply IH].
  unfold chan_send.
  destruct (chans σ !! Send client) as [q|] eqn:Hq; [|done].
  destruct (Chan.closed q) eqn:Hclosed; [done|].
  destruct (decide _); [|done].
  rewrite IH. unfold is_open. simpl.
  destruct (decide (ch = Send client)) as [->|Hne].
  - by rewrite lookup_insert_eq, Hq.
  - by rewrite lookup_insert_ne.
Qed.

(** X16.  The only channel a step of the hub ever closes is the mailbox of
    the Client named in an unregister event: whatever the event, the state
    and the outcome of the step, every other channel is open afterwards
    exactly if it was open before.  In particular a registration that
    replaces an older Client of the same user does not close the mailbox of
    the Client it replaces. *)
Theorem hub_closes_only_the_unregistered_mailbox (order : Ranger) (ev : event)
    (σ : State) (ch : loc) :
  (∀ client, ev = unregister client → ch ≠ Send client) →
  is_open (final (Run_step order ev σ)) ch = is_open σ ch.
Proof.
  intros Hother. destruct (mu σ) eqn:Hmu.
  { by rewrite Run_step_locked. }
  destruct ev as [client|client|message].
  - rewrite Run_step_register by done. by rewrite notify_loop_open.
  - rewrite Run_step_unregister by done.
    destruct (clients σ !! UserID client) as [c|];
      [|by rewrite notify_loop_open].
    destruct (chans σ !! Send client) as [q|] eqn:Hq; [|done].
    destruct (Chan.closed q); [done|].
    rewrite notify_loop_open. unfold is_open. simpl.
    rewrite lookup_insert_ne; [done|]. intros <-. by apply (Hother client).
  - rewrite Run_step_broadcast by done.
    destruct (clients σ !! ReceiverID message) as [receiver|]; [|done].
    destruct (chans σ !! Send receiver) as [q|] eqn:Hq; [|done].
    destruct (Chan.closed q) eqn:Hclosed; [done|].
    destruct (decide _); [|done].
    unfold is_open. simpl.
    destruct (decide (ch = Send receiver)) as [->|Hne].
    + by rewrite lookup_insert_eq, Hq.
    + by rewrite lookup_insert_ne.
Qed.

Lemma hub_closes_only_the_unregistered_mailbox_witness :
  is_open (final (Run_step listed (register bob) lobby)) (Send alice)
    = is_open lobby (Send alice).
Proof.
  apply (hub_closes_only_the_unregistered_mailbox listed (register bob)
           lobby (Send alice)).
  intros client Hev. discriminate Hev.
Defined.
